(** * IDOT bid-letting scraper: a shallow embedding and its properties

    The development follows [src/scrape.py] and [src/api/scrape.py], two
    near-duplicate variants of one serverless function.  The classes and
    functions the two files share word for word ([SimpleHTMLParser],
    [scrape_contract_detail], the per-contract loop and the CSV step of
    [process_repository]) are embedded once; the parts that differ
    ([fetch_url], [parse_repository_page], the listing stage of
    [process_repository]) live in the modules [Root] and [Api].

    Python strings are modelled as [string]; a character stands for a code
    point in 0..255 and the character classes below are the ones Python
    assigns to these code points.

    The standard library is not part of the repository and enters as
    follows.  The tokenizer ([html.parser.HTMLParser.feed]) is represented
    by what it does on a text: the sequence of handler calls it makes
    ([Markup]), or the exception it raises ([Html]).  [urllib.parse.urljoin]
    and [urllib.request.Request] are parameters that can raise, and
    [urllib.request.urlopen] is a parameter that answers with a text or an
    error and moves the state of the network. *)

From Stdlib Require Import Ascii String List Bool Arith ZArith Lia.
From stdpp Require Import base list strings pretty.
Import ListNotations.

(** ** Python string operations used by the scraper *)

Module Py.

Definition code (c : ascii) : nat := nat_of_ascii c.

(** [str.isspace] on one code point below 256. *)
Definition is_space (c : ascii) : bool :=
  let n := code c in
  ((9 <=? n) && (n <=? 13)) || ((28 <=? n) && (n <=? 32))
  || (n =? 133) || (n =? 160).

(** [str.isdigit] on one code point below 256: the ASCII digits and the
    superscripts two, three and one. *)
Definition is_digit (c : ascii) : bool :=
  let n := code c in
  ((48 <=? n) && (n <=? 57)) || (n =? 178) || (n =? 179) || (n =? 185).

Definition lower_char (c : ascii) : ascii :=
  let n := code c in
  if ((65 <=? n) && (n <=? 90))
     || ((192 <=? n) && (n <=? 222) && negb (n =? 215))
  then ascii_of_nat (n + 32) else c.

Fixpoint lower (s : string) : string :=
  match s with
  | EmptyString => EmptyString
  | String c s' => String (lower_char c) (lower s')
  end.

Fixpoint lstrip (s : string) : string :=
  match s with
  | EmptyString => EmptyString
  | String c s' => if is_space c then lstrip s' else s
  end.

Fixpoint rstrip (s : string) : string :=
  match s with
  | EmptyString => EmptyString
  | String c s' =>
      match rstrip s' with
      | EmptyString => if is_space c then EmptyString else String c EmptyString
      | r => String c r
      end
  end.

Definition strip (s : string) : string := rstrip (lstrip s).

(** [sub in s] *)
Fixpoint contains (sub s : string) : bool :=
  match s with
  | EmptyString => String.prefix sub EmptyString
  | String _ s' => String.prefix sub s || contains sub s'
  end.

(** [s.replace(c, '')] for a one-character [c] *)
Fixpoint remove_char (c : ascii) (s : string) : string :=
  match s with
  | EmptyString => EmptyString
  | String d s' =>
      if Ascii.eqb c d then remove_char c s' else String d (remove_char c s')
  end.

Fixpoint all_digits (s : string) : bool :=
  match s with
  | EmptyString => true
  | String c s' => is_digit c && all_digits s'
  end.

(** [s.isdigit()]: false on the empty string *)
Definition isdigit (s : string) : bool :=
  match s with
  | EmptyString => false
  | _ => all_digits s
  end.

(** [s.count(c)] for a one-character [c] *)
Fixpoint count (c : ascii) (s : string) : nat :=
  match s with
  | EmptyString => 0
  | String d s' => (if Ascii.eqb c d then 1 else 0) + count c s'
  end.

(** truthiness of a string: [bool(s)] *)
Definition truthy (s : string) : bool :=
  match s with EmptyString => false | _ => true end.

(** [a or b] on strings *)
Definition or_else (a b : string) : string := if truthy a then a else b.

(** [sep.join(parts)] *)
Definition join (sep : string) (parts : list string) : string :=
  String.concat sep parts.

End Py.

(** ** The table and link extractor ([SimpleHTMLParser]) *)

(** One handler call of the tokenizer.  Tag and attribute names arrive
    lower-cased; an attribute written without a value carries [None]. *)
Inductive Token : Type :=
| StartTag (tag : string) (attrs : list (string * option string))
| EndTag (tag : string)
| Text (data : string).

Abbreviation Markup := (list Token).

Abbreviation Row := (list string).
Abbreviation Table := (list (list string)).

(** The parser object.  [current_row] and [current_table] are Python lists
    that stay reachable from [tables] after they were appended, and the
    handlers keep appending to them; the two stores keep these list objects
    by identity, and a reference is an index into its store. *)
Record SimpleHTMLParser : Type := mkParser {
  row_store : list Row;
  table_store : list (list nat);
  tables : list nat;
  current_table : nat;
  current_row : nat;
  current_cell : string;
  in_table : bool;
  in_row : bool;
  in_cell : bool;
  links : list (option string)
}.

(** [__init__]: one empty table object and one empty row object exist. *)
Definition init : SimpleHTMLParser :=
  {| row_store := [ [] ]; table_store := [ [] ]; tables := [];
     current_table := 0; current_row := 0; current_cell := EmptyString;
     in_table := false; in_row := false; in_cell := false; links := [] |}.

Definition row_at (p : SimpleHTMLParser) (r : nat) : Row := row_store p !!! r.
Definition table_at (p : SimpleHTMLParser) (t : nat) : list nat :=
  table_store p !!! t.

(** the [href] values of a start tag, in attribute order *)
Definition hrefs (attrs : list (string * option string)) : list (option string) :=
  map snd (filter (fun a => String.eqb (fst a) "href") attrs).

Definition is_cell_tag (tag : string) : bool :=
  String.eqb tag "td" || String.eqb tag "th".

Definition handle_starttag (p : SimpleHTMLParser) (tag : string)
    (attrs : list (string * option string)) : SimpleHTMLParser :=
  if String.eqb tag "table" then
    {| row_store := row_store p;
       table_store := table_store p ++ [ [] ];
       tables := tables p;
       current_table := length (table_store p);
       current_row := current_row p; current_cell := current_cell p;
       in_table := true; in_row := in_row p; in_cell := in_cell p;
       links := links p |}
  else if String.eqb tag "tr" && in_table p then
    {| row_store := row_store p ++ [ [] ];
       table_store := table_store p;
       tables := tables p;
       current_table := current_table p;
       current_row := length (row_store p); current_cell := current_cell p;
       in_table := in_table p; in_row := true; in_cell := in_cell p;
       links := links p |}
  else if is_cell_tag tag && in_row p then
    {| row_store := row_store p; table_store := table_store p;
       tables := tables p; current_table := current_table p;
       current_row := current_row p; current_cell := EmptyString;
       in_table := in_table p; in_row := in_row p; in_cell := true;
       links := links p |}
  else if String.eqb tag "a" && in_cell p then
    {| row_store := row_store p; table_store := table_store p;
       tables := tables p; current_table := current_table p;
       current_row := current_row p; current_cell := current_cell p;
       in_table := in_table p; in_row := in_row p; in_cell := in_cell p;
       links := links p ++ hrefs attrs |}
  else p.

Definition nonempty {A} (l : list A) : bool :=
  match l with [] => false | _ => true end.

Definition handle_endtag (p : SimpleHTMLParser) (tag : string) : SimpleHTMLParser :=
  if String.eqb tag "table" then
    {| row_store := row_store p; table_store := table_store p;
       tables := if nonempty (table_at p (current_table p))
                 then tables p ++ [current_table p] else tables p;
       current_table := current_table p;
       current_row := current_row p; current_cell := current_cell p;
       in_table := false; in_row := in_row p; in_cell := in_cell p;
       links := links p |}
  else if String.eqb tag "tr" && in_row p then
    {| row_store := row_store p;
       table_store := if nonempty (row_at p (current_row p))
                      then alter (fun t => t ++ [current_row p])
                                 (current_table p) (table_store p)
                      else table_store p;
       tables := tables p; current_table := current_table p;
       current_row := current_row p; current_cell := current_cell p;
       in_table := in_table p; in_row := false; in_cell := in_cell p;
       links := links p |}
  else if is_cell_tag tag && in_cell p then
    {| row_store := alter (fun r => r ++ [Py.strip (current_cell p)])
                          (current_row p) (row_store p);
       table_store := table_store p;
       tables := tables p; current_table := current_table p;
       current_row := current_row p; current_cell := current_cell p;
       in_table := in_table p; in_row := in_row p; in_cell := false;
       links := links p |}
  else p.

Definition handle_data (p : SimpleHTMLParser) (data : string) : SimpleHTMLParser :=
  if in_cell p then
    {| row_store := row_store p; table_store := table_store p;
       tables := tables p; current_table := current_table p;
       current_row := current_row p;
       current_cell := current_cell p +:+ data;
       in_table := in_table p; in_row := in_row p; in_cell := in_cell p;
       links := links p |}
  else p.

Definition handle (p : SimpleHTMLParser) (t : Token) : SimpleHTMLParser :=
  match t with
  | StartTag tag attrs => handle_starttag p tag attrs
  | EndTag tag => handle_endtag p tag
  | Text data => handle_data p data
  end.

(** [parser.feed(html_content)] on a fresh or running parser *)
Definition feed_from (p : SimpleHTMLParser) (html : Markup) : SimpleHTMLParser :=
  fold_left handle html p.

Definition feed (html : Markup) : SimpleHTMLParser := feed_from init html.

(** What a reader of [parser.tables] sees: every reference followed. *)
Definition table_value (p : SimpleHTMLParser) (t : nat) : Table :=
  map (row_at p) (table_at p t).

Definition tables_of (p : SimpleHTMLParser) : list Table :=
  map (table_value p) (tables p).


Definition extract (html : Markup) : list Table * list (option string) :=
  let parser := feed html in (tables_of parser, links parser).

(** ** The detail-page field extractor ([scrape_contract_detail]) *)

Module Detail.
(** the three local variables of [scrape_contract_detail], and the
    dictionary it returns *)
Record t : Type := mk {
  low_bidder : string;
  low_bid_amount : string;
  awardee : string
}.
End Detail.

Definition dollar : string := "$".

(** [len(cell) > 10 and not cell.replace('.', '').replace(',', '')
    .replace('$', '').replace(' ', '').isdigit()] *)
Definition name_like (cell : string) : bool :=
  (10 <? String.length cell)
  && negb (Py.isdigit
             (Py.remove_char " " (Py.remove_char "$"
                (Py.remove_char "," (Py.remove_char "." cell))))).

(** the loop over the cells of a row matching the low-bid pattern *)
Definition same_row_cell (st : Detail.t) (cell : string) : Detail.t :=
  if Py.contains dollar cell then
    Detail.mk (Detail.low_bidder st) (Py.strip cell) (Detail.awardee st)
  else if name_like cell then
    Detail.mk (Py.strip cell) (Detail.low_bid_amount st) (Detail.awardee st)
  else st.

(** the loop over the cells of [table[i + 1]] *)
Definition next_row_cell (st : Detail.t) (cell : string) : Detail.t :=
  if Py.contains dollar cell && negb (Py.truthy (Detail.low_bid_amount st)) then
    Detail.mk (Detail.low_bidder st) (Py.strip cell) (Detail.awardee st)
  else if (10 <? String.length cell) && negb (Py.truthy (Detail.low_bidder st)) then
    Detail.mk (Py.strip cell) (Detail.low_bid_amount st) (Detail.awardee st)
  else st.

Definition awardee_cell (st : Detail.t) (cell : string) : Detail.t :=
  if name_like cell then
    Detail.mk (Detail.low_bidder st) (Detail.low_bid_amount st) (Py.strip cell)
  else st.

Definition row_text (row : Row) : string := Py.lower (Py.join " " row).

Definition is_low_bid_row (row : Row) : bool :=
  Py.contains "low bid" (row_text row) || Py.contains "lowest bid" (row_text row).

Definition is_award_row (row : Row) : bool :=
  Py.contains "award" (row_text row) && Py.contains "awardee" (row_text row).

(** the body of [for i, row in enumerate(table)] *)
Definition scan_row (table : Table) (i : nat) (row : Row) (st : Detail.t)
  : Detail.t :=
  let st1 :=
    if is_low_bid_row row then
      let st' := fold_left same_row_cell row st in
      if i + 1 <? length table then
        match table !! (i + 1) with
        | Some next_row => fold_left next_row_cell next_row st'
        | None => st'
        end
      else st'
    else st in
  if is_award_row row then fold_left awardee_cell row st1 else st1.

Fixpoint scan_rows_from (table : Table) (i : nat) (rows : list Row)
    (st : Detail.t) : Detail.t :=
  match rows with
  | [] => st
  | row :: rest => scan_rows_from table (S i) rest (scan_row table i row st)
  end.

Definition scan_table (st : Detail.t) (table : Table) : Detail.t :=
  scan_rows_from table 0 table st.

Definition not_found : string := "Not Found".

(** the search over already extracted tables, and the returned dictionary *)
Definition detail_of_tables (tbls : list Table) : Detail.t :=
  let st := fold_left scan_table tbls
              (Detail.mk EmptyString EmptyString EmptyString) in
  Detail.mk (Py.or_else (Detail.low_bidder st) not_found)
            (Py.or_else (Detail.low_bid_amount st) not_found)
            (Py.or_else (Detail.awardee st) not_found).

Definition scrape_contract_detail (html_content : Markup) : Detail.t :=
  detail_of_tables (tables_of (feed html_content)).

(** ** Exceptions and results *)

Inductive exn : Type :=
| Exception (msg : string)
| TypeError (msg : string)
| ValueError (msg : string)
| AssertionError (msg : string).

Definition str_exn (e : exn) : string :=
  match e with
  | Exception m => m
  | TypeError m => m
  | ValueError m => m
  | AssertionError m => m
  end.

Inductive result (A : Type) : Type :=
| Ok (a : A)
| Raise (e : exn).
Arguments Ok {A} a.
Arguments Raise {A} e.

(** ** The text of a page *)

(** The text of a page enters the program through [parser.feed], the
    tokenizer of the standard library.  A text is represented by what the
    tokenizer does on it: it makes the handler calls [calls] and returns, or
    it gives up with an exception (an [AssertionError] on a marked section
    it does not know, such as the text <![x]>).  The parser class catches
    nothing, and a parser whose [feed] raised is never read. *)
Inductive Html : Type :=
| Tokens (calls : Markup)
| GivesUp (e : exn).

(** [parser.feed(html_content)], up to the handler calls made *)
Definition parser_feed (html_content : Html) : result Markup :=
  match html_content with
  | Tokens calls => Ok calls
  | GivesUp e => Raise e
  end.

(** [scrape_contract_detail(html_content)] on a text: [scrape_contract_detail]
    above is its body once [parser.feed] has returned *)
Definition scrape_contract_detail_text (html_content : Html) : result Detail.t :=
  match parser_feed html_content with
  | Ok html => Ok (scrape_contract_detail html)
  | Raise e => Raise e
  end.

(** what a caller reads from a parser fed with a text *)
Definition extract_text (html_content : Html)
  : result (list Table * list (option string)) :=
  match parser_feed html_content with
  | Ok html => Ok (extract html)
  | Raise e => Raise e
  end.

(** ** The listing filter and URL resolver ([parse_repository_page]) *)

Definition VALID_COUNTIES : list string :=
  ["boone"; "cook"; "grundy"; "dupage"; "kane";
   "kendall"; "lake"; "mchenry"; "will"; "various"].

Definition VALID_STATUSES : list string := ["active"; "executed"; "awarded"].

Definition marker : string := "LbContractDetail".

Definition has_valid_county (text : string) : bool :=
  existsb (fun county => Py.contains county text) VALID_COUNTIES.

Definition has_valid_status (text : string) : bool :=
  existsb (fun status => Py.contains status text) VALID_STATUSES.

(** a row the row pass acts on: at least three cells, a county and a status *)
Definition row_matches (row : Row) : bool :=
  negb (length row <? 3)
  && has_valid_county (row_text row) && has_valid_status (row_text row).

(** [x in l] on a list of strings *)
Definition mem (x : string) (l : list string) : bool := existsb (String.eqb x) l.

(** ['LbContractDetail' in link] when [link] is [None] *)
Definition none_not_iterable : exn :=
  TypeError "argument of type 'NoneType' is not iterable".


(** ** The report and its serialisation *)

Module Contract.
(** one entry of [results] *)
Record t : Type := mk {
  contract_url : string;
  low_bidder : string;
  low_bid_amount : string;
  awardee : string
}.
End Contract.

Definition fieldnames : list string :=
  ["contract_url"; "low_bidder"; "low_bid_amount"; "awardee"].

Definition dict_to_list (c : Contract.t) : list string :=
  [Contract.contract_url c; Contract.low_bidder c;
   Contract.low_bid_amount c; Contract.awardee c].

(** [csv.DictWriter] with the default dialect: delimiter comma, quote
    character 34, doubled quotes, minimal quoting, records ended by CR LF. *)
Module Csv.

Definition comma : ascii := ",".
Definition quote : ascii := ascii_of_nat 34.
Definition CR : ascii := ascii_of_nat 13.
Definition LF : ascii := ascii_of_nat 10.

Definition special (c : ascii) : bool :=
  Ascii.eqb c comma || Ascii.eqb c quote || Ascii.eqb c CR || Ascii.eqb c LF.

Fixpoint needs_quotes (field : string) : bool :=
  match field with
  | EmptyString => false
  | String c rest => special c || needs_quotes rest
  end.

Fixpoint double_quotes (field : string) : string :=
  match field with
  | EmptyString => EmptyString
  | String c rest =>
      if Ascii.eqb c quote then String quote (String quote (double_quotes rest))
      else String c (double_quotes rest)
  end.

Definition write_field (field : string) : string :=
  if needs_quotes field
  then String quote (double_quotes field +:+ String quote EmptyString)
  else field.

Definition lineterminator : string := String CR (String LF EmptyString).

(** [writer.writerow]; a record made of one empty field is written as a
    pair of quotes *)
Definition writerow (fields : list string) : string :=
  match fields with
  | [EmptyString] => String quote (String quote lineterminator)
  | _ => Py.join (String comma EmptyString) (map write_field fields)
         +:+ lineterminator
  end.

Definition writerows (rows : list (list string)) : string :=
  fold_left (fun out row => out +:+ writerow row) rows EmptyString.

End Csv.

(** [writer.writeheader(); writer.writerows(results); output.getvalue()] *)
Definition to_csv (results : list Contract.t) : string :=
  Csv.writerow fieldnames +:+ Csv.writerows (map dict_to_list results).

(** ** Fetching *)

(** what [urllib.request.urlopen] and the decoding of the body can raise *)
Inductive NetError : Type :=
| HTTPError (code : nat) (reason : string)
| URLError (reason : string)
| OtherError (msg : string).

(** [str(e)] for these exceptions *)
Definition str_net (e : NetError) : string :=
  match e with
  | HTTPError code reason => "HTTP Error " +:+ pretty code +:+ ": " +:+ reason
  | URLError reason => "<urlopen error " +:+ reason +:+ ">"
  | OtherError msg => msg
  end.

(** ** The per-contract loop of [process_repository] *)

Section Batch.
Context {World : Type}.
Variable fetch_url : string -> World -> result Html * World.

(** the [except] branch of the loop *)
Definition error_row (contract_url : string) (e : exn) : Contract.t :=
  Contract.mk contract_url ("ERROR: " +:+ str_exn e) EmptyString EmptyString.

(** the body of [for contract_url in contract_urls]: the [try] covers the
    fetch and the extraction *)
Definition contract_row (contract_url : string) (w : World)
  : Contract.t * World :=
  match fetch_url contract_url w with
  | (Ok contract_html, w') =>
      match scrape_contract_detail_text contract_html with
      | Ok data =>
          (Contract.mk contract_url (Detail.low_bidder data)
             (Detail.low_bid_amount data) (Detail.awardee data), w')
      | Raise e => (error_row contract_url e, w')
      end
  | (Raise e, w') => (error_row contract_url e, w')
  end.

Fixpoint scrape_contracts (contract_urls : list string)
    (results : list Contract.t) (w : World) : list Contract.t * World :=
  match contract_urls with
  | [] => (results, w)
  | contract_url :: rest =>
      let '(row, w') := contract_row contract_url w in
      scrape_contracts rest (results ++ [row]) w'
  end.
End Batch.

(** ** The request handler *)

Inductive Reply : Type :=
| Success (csv message : string)
| Failure (error : string).

(** [csv_content.count(chr(10)) - 1] *)
Definition scraped_count (csv_content : string) : Z :=
  Z.of_nat (Py.count Csv.LF csv_content) - 1.

Definition success_message (csv_content : string) : string :=
  "Successfully scraped " +:+ pretty (scraped_count csv_content) +:+ " contracts".

Section Handler.
Context {World : Type}.
Variable process_repository : string -> World -> result string * World.

(** the POST path, from the decoded [repo_url] field on (a missing field
    reads as the empty string) *)
Definition handle_post (repo_url_field : string) (w : World) : Reply * World :=
  let repo_url := Py.strip repo_url_field in
  if Py.truthy repo_url then
    match process_repository repo_url w with
    | (Ok csv_content, w') =>
        (Success csv_content (success_message csv_content), w')
    | (Raise e, w') => (Failure (str_exn e), w')
    end
  else (Failure "No repository URL provided", w).
End Handler.

(** ** The two variants: listing stage, fetching and orchestration *)

Module Root.
Section Listing.
(** [urllib.parse.urljoin]; it raises a [ValueError] on some targets (a
    bracket of an IPv6 host left open, for one) *)
Variable urljoin : string -> string -> result string.

Definition link_step (base_url : string) (acc : result (list string))
    (link : option string) : result (list string) :=
  match acc with
  | Raise e => Raise e
  | Ok contract_urls =>
      match link with
      | None => Raise none_not_iterable
      | Some l =>
          if Py.contains marker l then
            match urljoin base_url l with
            | Ok full_url => Ok (contract_urls ++ [full_url])
            | Raise e => Raise e
            end
          else Ok contract_urls
      end
  end.

(** The row loop of this variant fills a list [contracts] that is never
    read and raises nothing; only the link loop decides the result. *)
Definition parse_repository_page (html_content : Markup) (base_url : string)
  : result (list string) :=
  let parser := feed html_content in
  fold_left (link_step base_url) (links parser) (Ok []).

(** [parse_repository_page(html_content, base_url)] on a text *)
Definition parse_repository_page_text (html_content : Html) (base_url : string)
  : result (list string) :=
  match parser_feed html_content with
  | Ok html => parse_repository_page html base_url
  | Raise e => Raise e
  end.
End Listing.

Section Run.
Context {World : Type}.
(** [urllib.request.Request(url, headers=...)]: the exception it raises on a
    URL it cannot read (a [ValueError] when the URL has no scheme); nothing
    is sent at that point *)
Variable Request : string -> option exn.
Variable urlopen : string -> World -> (NetError + Html) * World.
Variable urljoin : string -> string -> result string.

(** the three [except] clauses of [fetch_url], most specific first *)
Definition describe (e : NetError) : string :=
  match e with
  | HTTPError code reason => "HTTP Error " +:+ pretty code +:+ ": " +:+ reason
  | URLError reason => "URL Error: " +:+ reason
  | OtherError msg => "Fetch Error: " +:+ msg
  end.

(** the request is built before the [try]: what it raises is not reworded *)
Definition fetch_url (url : string) (w : World) : result Html * World :=
  match Request url with
  | Some e => (Raise e, w)
  | None =>
      match urlopen url w with
      | (inr html, w') => (Ok html, w')
      | (inl e, w') => (Raise (Exception (describe e)), w')
      end
  end.

Definition no_match : string :=
  "No matching contracts found. Please check the URL and filter criteria.".

Definition process_repository (repo_url : string) (w : World)
  : result string * World :=
  match fetch_url repo_url w with
  | (Raise e, w1) =>
      (Raise (Exception ("Failed to fetch repository page: " +:+ str_exn e)), w1)
  | (Ok html, w1) =>
      match parse_repository_page_text urljoin html repo_url with
      | Raise e => (Raise e, w1)
      | Ok contract_urls =>
          if nonempty contract_urls then
            let '(results, w2) := scrape_contracts fetch_url contract_urls [] w1 in
            (Ok (to_csv results), w2)
          else (Raise (Exception no_match), w1)
      end
  end.

Definition handler := handle_post process_repository.
End Run.
End Root.

Module Api.
Section Listing.
Variable urljoin : string -> string -> result string.

Definition link_step (base_url : string) (acc : result (list string))
    (link : option string) : result (list string) :=
  match acc with
  | Raise e => Raise e
  | Ok contract_urls =>
      match link with
      | None => Raise none_not_iterable
      | Some l =>
          if Py.contains marker l then
            match urljoin base_url l with
            | Ok full_url =>
                if mem full_url contract_urls then Ok contract_urls
                else Ok (contract_urls ++ [full_url])
            | Raise e => Raise e
            end
          else Ok contract_urls
      end
  end.

(** one row of the row pass; the state is [(contract_urls, filtered_urls)] *)
Definition row_step (st : list string * list string) (row : Row)
  : list string * list string :=
  let '(contract_urls, filtered_urls) := st in
  if length row <? 3 then st
  else if has_valid_county (row_text row) && has_valid_status (row_text row) then
    match contract_urls with
    | [] => st
    | url :: contract_urls' =>
        if mem url filtered_urls then (contract_urls', filtered_urls)
        else (contract_urls', filtered_urls ++ [url])
    end
  else st.

Definition table_step (st : list string * list string) (table : Table)
  : list string * list string :=
  fold_left row_step table st.

Definition parse_repository_page (html_content : Markup) (base_url : string)
  : result (list string) :=
  let parser := feed html_content in
  match fold_left (link_step base_url) (links parser) (Ok []) with
  | Raise e => Raise e
  | Ok contract_urls =>
      Ok (snd (fold_left table_step (tables_of parser) (contract_urls, [])))
  end.

(** [parse_repository_page(html_content, base_url)] on a text *)
Definition parse_repository_page_text (html_content : Html) (base_url : string)
  : result (list string) :=
  match parser_feed html_content with
  | Ok html => parse_repository_page html base_url
  | Raise e => Raise e
  end.
End Listing.

Section Run.
Context {World : Type}.
Variable Request : string -> option exn.
Variable urlopen : string -> World -> (NetError + Html) * World.
Variable urljoin : string -> string -> result string.

(** the request is built before the [try]: what it raises is not wrapped *)
Definition fetch_url (url : string) (w : World) : result Html * World :=
  match Request url with
  | Some e => (Raise e, w)
  | None =>
      match urlopen url w with
      | (inr html, w') => (Ok html, w')
      | (inl e, w') =>
          (Raise (Exception ("Failed to fetch " +:+ url +:+ ": " +:+ str_net e)), w')
      end
  end.

Definition no_match : string :=
  "No matching contracts found. Check the URL and filter criteria.".

Definition process_repository (repo_url : string) (w : World)
  : result string * World :=
  match fetch_url repo_url w with
  | (Raise e, w1) => (Raise e, w1)
  | (Ok html, w1) =>
      match parse_repository_page_text urljoin html repo_url with
      | Raise e => (Raise e, w1)
      | Ok contract_urls =>
          if nonempty contract_urls then
            let '(results, w2) := scrape_contracts fetch_url contract_urls [] w1 in
            (Ok (to_csv results), w2)
          else (Raise (Exception no_match), w1)
      end
  end.

Definition handler := handle_post process_repository.
End Run.
End Api.

(** ** Reading the report back *)

(** Modelled from the spec: the reader of the tabular output is not part of
    the repository.  It is the usual comma-separated reader for the format
    section 6 of the specification describes: fields split at commas,
    records ended by CR LF (or a lone CR or LF), a field in quotes running
    to its closing quote with a doubled quote standing for one quote, a
    blank line read as an empty record. *)
Module CsvReader.

Inductive mode : Type :=
| StartRecord | AfterCR | StartField | InField | InQuoted | QuoteInQuoted.

Record state : Type := mk {
  mode_of : mode;
  field : string;
  record : list string;
  records : list (list string)
}.

Definition initial : state := mk StartRecord EmptyString [] [].

Definition add (c : ascii) (m : mode) (s : state) : state :=
  mk m (field s +:+ String c EmptyString) (record s) (records s).

Definition end_field (m : mode) (s : state) : state :=
  mk m EmptyString (record s ++ [field s]) (records s).

Definition end_record (m : mode) (s : state) : state :=
  mk m EmptyString [] (records s ++ [record s ++ [field s]]).

Definition blank_line (m : mode) (s : state) : state :=
  mk m EmptyString [] (records s ++ [ [] ]).

Definition goto (m : mode) (s : state) : state :=
  mk m (field s) (record s) (records s).

(** a character met where a field begins; [fresh] tells that the record
    begins there too *)
Definition start (fresh : bool) (c : ascii) (s : state) : state :=
  if Ascii.eqb c Csv.quote then goto InQuoted s
  else if Ascii.eqb c Csv.comma then end_field StartField s
  else if Ascii.eqb c Csv.CR then
    (if fresh then blank_line AfterCR s else end_record AfterCR s)
  else if Ascii.eqb c Csv.LF then
    (if fresh then blank_line StartRecord s else end_record StartRecord s)
  else add c InField s.

Definition step (s : state) (c : ascii) : state :=
  match mode_of s with
  | StartRecord => start true c s
  | AfterCR => if Ascii.eqb c Csv.LF then goto StartRecord s else start true c s
  | StartField => start false c s
  | InField =>
      if Ascii.eqb c Csv.comma then end_field StartField s
      else if Ascii.eqb c Csv.CR then end_record AfterCR s
      else if Ascii.eqb c Csv.LF then end_record StartRecord s
      else add c InField s
  | InQuoted =>
      if Ascii.eqb c Csv.quote then goto QuoteInQuoted s else add c InQuoted s
  | QuoteInQuoted =>
      if Ascii.eqb c Csv.quote then add c InQuoted s
      else if Ascii.eqb c Csv.comma then end_field StartField s
      else if Ascii.eqb c Csv.CR then end_record AfterCR s
      else if Ascii.eqb c Csv.LF then end_record StartRecord s
      else add c InField s
  end.

Fixpoint run (text : string) (s : state) : state :=
  match text with
  | EmptyString => s
  | String c rest => run rest (step s c)
  end.

Definition finish (s : state) : list (list string) :=
  match mode_of s with
  | StartRecord | AfterCR => records s
  | _ => records s ++ [record s ++ [field s]]
  end.

Definition read (text : string) : list (list string) :=
  finish (run text initial).

Definition contract_of (fields : list string) : option Contract.t :=
  match fields with
  | [u; b; a; w] => Some (Contract.mk u b a w)
  | _ => None
  end.

(** the header names the columns; the other records, blank lines apart,
    are the contracts *)
Definition read_report (text : string) : option (list Contract.t) :=
  match read text with
  | header :: rows =>
      if decide (header = fieldnames)
      then mapM contract_of (filter (fun r => nonempty r = true) rows)
      else None
  | [] => None
  end.

End CsvReader.

(** ** The claims' own vocabulary *)

(** Follows the spec's words (4.4, the next-row rule): the per-cell tests of
    the matching row, filling only a field that is still empty. *)
Definition next_row_cell_spec (st : Detail.t) (cell : string) : Detail.t :=
  if Py.contains dollar cell then
    if Py.truthy (Detail.low_bid_amount st) then st
    else Detail.mk (Detail.low_bidder st) (Py.strip cell) (Detail.awardee st)
  else if name_like cell then
    if Py.truthy (Detail.low_bidder st) then st
    else Detail.mk (Py.strip cell) (Detail.low_bid_amount st) (Detail.awardee st)
  else st.

(** Follows the spec's words: well-formed markup closes every tag it opens,
    innermost first, and gives every [href] a value. *)
Fixpoint well_nested (open : list string) (html : Markup) : bool :=
  match html with
  | [] => negb (nonempty open)
  | StartTag tag _ :: rest => well_nested (tag :: open) rest
  | EndTag tag :: rest =>
      match open with
      | tag' :: open' => String.eqb tag tag' && well_nested open' rest
      | [] => false
      end
  | Text _ :: rest => well_nested open rest
  end.

Definition href_valued (t : Token) : bool :=
  match t with
  | StartTag _ attrs => forallb (fun v => match v with Some _ => true | None => false end)
                          (hrefs attrs)
  | _ => true
  end.

Definition well_formed (html : Markup) : bool :=
  well_nested [] html && forallb href_valued html.

(** N: the rows of the listing that match a county and a status *)
Definition matching_rows (html : Markup) : nat :=
  length (filter (fun row => row_matches row = true) (concat (tables_of (feed html)))).

Definition is_marker_link (link : option string) : bool :=
  match link with Some l => Py.contains marker l | None => false end.

(** M: the captured links that carry the marker *)
Definition marker_links (html : Markup) : nat :=
  length (filter (fun l => is_marker_link l = true) (links (feed html))).

(** first-seen de-duplication *)
Definition first_seen (urls : list string) : list string :=
  fold_left (fun seen u => if mem u seen then seen else seen ++ [u]) urls [].

(** ** Building documents for the examples *)

Definition td (text : string) : Markup := [StartTag "td" []; Text text; EndTag "td"].

Definition td_link (href text : string) : Markup :=
  [StartTag "td" []; StartTag "a" [("href", Some href)]; Text text;
   EndTag "a"; EndTag "td"].

Definition tr (cells : list Markup) : Markup :=
  [StartTag "tr" []] ++ concat cells ++ [EndTag "tr"].

Definition table (rows : list Markup) : Markup :=
  [StartTag "table" []] ++ concat rows ++ [EndTag "table"].

(** ** Vocabulary of the statements and examples *)

(** what the stores guarantee at every moment of a run *)
Record store_ok (p : SimpleHTMLParser) : Prop := StoreOk {
  ok_current_table : current_table p < length (table_store p);
  ok_current_row : current_row p < length (row_store p);
  ok_tables : Forall (fun t => t < length (table_store p)) (tables p);
  ok_rows : Forall (Forall (fun r => r < length (row_store p))) (table_store p);
  ok_tables_nonempty : Forall (fun t => table_at p t <> []) (tables p);
  ok_rows_nonempty : Forall (Forall (fun r => row_at p r <> [])) (table_store p)
}.

Definition opens_table (tok : Token) : bool :=
  match tok with
  | StartTag tag _ => String.eqb tag "table"
  | _ => false
  end.

Definition dedup_into (seen urls : list string) : list string :=
  fold_left (fun seen u => if mem u seen then seen else seen ++ [u]) urls seen.

(** [urljoin] resolves the marker links among [targets], in order, to [urls] *)
Definition resolves (urljoin : string -> string -> result string)
    (base_url : string) (targets urls : list string) : Prop :=
  Forall2 (fun l url => urljoin base_url l = Ok url)
          (filter (fun l => Py.contains marker l = true) targets) urls.

(** two matching rows whose cells link to one and the same detail page *)
Definition duplicate_listing : Markup :=
  table [tr [td "Cook"; td "Active"; td_link "LbContractDetail/1" "61A12"];
         tr [td "Lake"; td "Awarded"; td_link "LbContractDetail/1" "61A12"]].

(** a stand-in for [urljoin] where an example needs one *)
Definition urljoin_concat (base_url link : string) : result string :=
  Ok (base_url +:+ link).

(** a stand-in for [Request] where an example needs one: a URL without a
    colon has no scheme *)
Definition request_with_scheme (url : string) : option exn :=
  if Py.contains ":" url then None
  else Some (ValueError ("unknown url type: '" +:+ url +:+ "'")).

(** what fetching and extracting a detail page comes to *)
Definition outcome (r : result Html) : result Detail.t :=
  match r with
  | Ok html_content => scrape_contract_detail_text html_content
  | Raise e => Raise e
  end.

(** the outcomes for the URLs the loop goes through, in order *)
Fixpoint outcomes {World : Type}
    (fetch_url : string -> World -> result Html * World)
    (urls : list string) (w : World) : list (result Detail.t) :=
  match urls with
  | [] => []
  | url :: rest =>
      let '(r, w') := fetch_url url w in outcome r :: outcomes fetch_url rest w'
  end.

Definition is_error_row (row : Contract.t) : Prop :=
  String.prefix "ERROR:" (Contract.low_bidder row) = true
  /\ Contract.low_bid_amount row = EmptyString
  /\ Contract.awardee row = EmptyString.

(** the row a URL gets, given the outcome of its own fetch and extraction *)
Definition row_for (url : string) (r : result Detail.t) (row : Contract.t) : Prop :=
  match r with
  | Ok data =>
      row = Contract.mk url (Detail.low_bidder data)
                        (Detail.low_bid_amount data) (Detail.awardee data)
  | Raise e =>
      row = Contract.mk url ("ERROR: " +:+ str_exn e) EmptyString EmptyString
  end.

(** what a run reports for the resolved URLs [urls]: the rows, one per URL,
    and the text written for them, which holds these rows and no other *)
Definition one_row_per_url {World : Type}
    (fetch_url : string -> World -> result Html * World)
    (urls : list string) (w1 : World) (csv : string) (w' : World) : Prop :=
  exists rows : list Contract.t,
    scrape_contracts fetch_url urls [] w1 = (rows, w')
    /\ csv = to_csv rows
    /\ CsvReader.read_report csv = Some rows
    /\ length rows = length urls
    /\ map Contract.contract_url rows = urls
    /\ Forall2 (fun ur row => row_for (fst ur) (snd ur) row)
               (zip urls (outcomes fetch_url urls w1)) rows.

Definition sample_listing : Markup :=
  table [tr [td "Cook"; td "Active"; td_link "LbContractDetail/1" "61A12"];
         tr [td "Lake"; td "Awarded"; td_link "LbContractDetail/2" "61A13"];
         tr [td "Will"; td "Executed"; td_link "LbContractDetail/3" "61A14"]].

Definition sample_detail : Markup :=
  table [tr [td "Low Bid"; td "Acme Construction Co"; td "$1,234,567.89"]].

(** the listing answers, the second detail page does not *)
Definition sample_urlopen (url : string) (w : unit) : (NetError + Html) * unit :=
  if String.eqb url "http://idot/" then (inr (Tokens sample_listing), w)
  else if String.eqb url "http://idot/LbContractDetail/2"
       then (inl (HTTPError 404 "Not Found"), w)
       else (inr (Tokens sample_detail), w).

(** nothing answers *)
Definition down_urlopen (url : string) (w : unit) : (NetError + Html) * unit :=
  (inl (URLError "timed out"), w).

(** the text <![x]>: a marked section with a keyword the tokenizer does not
    know; [parser.feed] makes no handler call and raises *)
Definition marked_section_text : Html :=
  GivesUp (AssertionError "unknown status keyword 'x' in marked section").

(** the listing answers; the second detail page comes back and cannot be
    tokenized *)
Definition garbled_urlopen (url : string) (w : unit) : (NetError + Html) * unit :=
  if String.eqb url "http://idot/" then (inr (Tokens sample_listing), w)
  else if String.eqb url "http://idot/LbContractDetail/2"
       then (inr marked_section_text, w)
       else (inr (Tokens sample_detail), w).

(** every page comes back as this text *)
Definition unreadable_urlopen (url : string) (w : unit)
  : (NetError + Html) * unit := (inr marked_section_text, w).

Definition garbled_rows : list Contract.t :=
  [Contract.mk "http://idot/LbContractDetail/1"
     "Acme Construction Co" "$1,234,567.89" "Not Found";
   Contract.mk "http://idot/LbContractDetail/2"
     "ERROR: unknown status keyword 'x' in marked section"
     EmptyString EmptyString;
   Contract.mk "http://idot/LbContractDetail/3"
     "Acme Construction Co" "$1,234,567.89" "Not Found"].

(** the Acme row followed by a second low-bid row *)
Definition two_bids_detail : Markup :=
  table [tr [td "Low Bid"; td "Acme Construction Co"; td "$1,234,567.89"];
         tr [td "Second Low Bid"; td "Bolt Paving Company"; td "$2,000,000.00"]].

Definition sample_rows : list Contract.t :=
  [Contract.mk "http://idot/LbContractDetail/1"
     "Acme Construction Co" "$1,234,567.89" "Not Found";
   Contract.mk "http://idot/LbContractDetail/2"
     "ERROR: Failed to fetch http://idot/LbContractDetail/2: HTTP Error 404: Not Found"
     EmptyString EmptyString;
   Contract.mk "http://idot/LbContractDetail/3"
     "Acme Construction Co" "$1,234,567.89" "Not Found"].






Definition acme_row : Row := ["Low Bid"; "Acme Construction Co"; "$1,234,567.89"].

(** the cells of the next row that are tried as bidder: every cell but the
    one that fills an amount still empty *)
Fixpoint bidder_candidates (amount_set : bool) (next_row : Row) : Row :=
  match next_row with
  | [] => []
  | cell :: rest =>
      if Py.contains dollar cell && negb amount_set
      then bidder_candidates true rest
      else cell :: bidder_candidates amount_set rest
  end.

(** two states that agree on bidder and amount *)
Definition same_bid (st1 st2 : Detail.t) : Prop :=
  Detail.low_bidder st1 = Detail.low_bidder st2
  /\ Detail.low_bid_amount st1 = Detail.low_bid_amount st2.

(** the reader stands where a field begins *)
Definition field_start (m : CsvReader.mode) : Prop :=
  m = CsvReader.StartRecord \/ m = CsvReader.StartField.

Definition newlines_in (r : Contract.t) : nat :=
  Py.count Csv.LF (Contract.contract_url r)
  + Py.count Csv.LF (Contract.low_bidder r)
  + Py.count Csv.LF (Contract.low_bid_amount r)
  + Py.count Csv.LF (Contract.awardee r).

Definition two_line_name : string := "Acme" +:+ String Csv.LF "Construction Co".

Definition one_row_listing : Markup :=
  table [tr [td "Cook"; td "Active"; td_link "LbContractDetail/1" "61A12"]].

(** a detail page whose bidder cell runs over two lines *)
Definition two_line_detail : Markup :=
  table [tr [td "Low Bid"; td two_line_name; td "$1,234,567.89"]].

Definition two_line_urlopen (url : string) (w : unit) : (NetError + Html) * unit :=
  if String.eqb url "http://idot/" then (inr (Tokens one_row_listing), w)
  else (inr (Tokens two_line_detail), w).

Definition two_line_row : Contract.t :=
  Contract.mk "http://idot/LbContractDetail/1" two_line_name
              "$1,234,567.89" "Not Found".

(** every cell kept in the row store is stripped *)
Definition cells_stripped (p : SimpleHTMLParser) : Prop :=
  Forall (Forall (fun cell => Py.strip cell = cell)) (row_store p).

(** a listing whose link cell has an [href] without a value *)
Definition valueless_listing : Markup :=
  table [tr [td "Cook"; td "Active";
             [StartTag "td" []; StartTag "a" [("href", None)]; Text "61A12";
              EndTag "a"; EndTag "td"]]].

Definition valueless_urlopen (url : string) (w : unit)
  : (NetError + Html) * unit := (inr (Tokens valueless_listing), w).

(** the network after the requests for [urls], made in this order *)
Definition after_fetches {World : Type}
    (urlopen : string -> World -> (NetError + Html) * World)
    (urls : list string) (w : World) : World :=
  fold_left (fun w url => snd (urlopen url w)) urls w.

(** [Request] accepts the URL: a request for it goes out *)
Definition requestable (Request : string -> option exn) (url : string) : bool :=
  match Request url with None => true | Some _ => false end.

(** a network that keeps the list of the URLs requested, oldest first *)
Definition logging_urlopen (url : string) (w : list string)
  : (NetError + Html) * list string :=
  (fst (sample_urlopen url tt), w ++ [url]).

Fixpoint all_space (s : string) : bool :=
  match s with
  | EmptyString => true
  | String c rest => Py.is_space c && all_space rest
  end.

(** ** Documents written table by table *)

(** a cell as a page author writes it: text, or a link around text *)
Inductive CellSpec : Type :=
| PlainCell (text : string)
| LinkCell (href text : string).

Definition cell_text (c : CellSpec) : string :=
  match c with PlainCell text => text | LinkCell _ text => text end.

Definition cell_hrefs (c : CellSpec) : list string :=
  match c with PlainCell _ => [] | LinkCell href _ => [href] end.

Definition render_cell (c : CellSpec) : Markup :=
  match c with
  | PlainCell text => td text
  | LinkCell href text => td_link href text
  end.

Definition render_row (cells : list CellSpec) : Markup :=
  tr (map render_cell cells).

Definition render_table (rows : list (list CellSpec)) : Markup :=
  table (map render_row rows).

Definition render_document (tbls : list (list (list CellSpec))) : Markup :=
  concat (map render_table tbls).

(** what a reader sees in the cells of a row: the stripped texts *)
Definition row_texts (cells : list CellSpec) : Row :=
  map (fun c => Py.strip (cell_text c)) cells.

(** the rows of a table that have a cell *)
Definition table_texts (rows : list (list CellSpec)) : Table :=
  filter (fun r => nonempty r = true) (map row_texts rows).

(** the tables of a document that have such a row *)
Definition document_tables (tbls : list (list (list CellSpec))) : list Table :=
  filter (fun t => nonempty t = true) (map table_texts tbls).

Definition row_hrefs (cells : list CellSpec) : list string :=
  concat (map cell_hrefs cells).

Definition table_hrefs (rows : list (list CellSpec)) : list string :=
  concat (map row_hrefs rows).

Definition document_hrefs (tbls : list (list (list CellSpec))) : list string :=
  concat (map table_hrefs tbls).

(** the references the rows of a table get in the row store, the first row
    being stored at [base]; a row without cells is stored and not referred to *)
Fixpoint row_refs (base : nat) (rows : list (list CellSpec)) : list nat :=
  match rows with
  | [] => []
  | cells :: rest =>
      (if nonempty cells then [base] else []) ++ row_refs (S base) rest
  end.

Definition closes_table (tok : Token) : bool :=
  match tok with
  | EndTag tag => String.eqb tag "table"
  | _ => false
  end.

Definition starts_cell (tok : Token) : bool :=
  match tok with
  | StartTag tag _ => is_cell_tag tag
  | _ => false
  end.

(** the three flags of the parser, and how one handler call moves them;
    the flags move without regard to the stores *)
Definition flags (p : SimpleHTMLParser) : bool * bool * bool :=
  (in_table p, in_row p, in_cell p).

Definition flag_step (f : bool * bool * bool) (tok : Token) : bool * bool * bool :=
  let '(it, ir, ic) := f in
  match tok with
  | StartTag tag _ =>
      if String.eqb tag "table" then (true, ir, ic)
      else if String.eqb tag "tr" && it then (it, true, ic)
      else if is_cell_tag tag && ir then (it, ir, true)
      else f
  | EndTag tag =>
      if String.eqb tag "table" then (false, ir, ic)
      else if String.eqb tag "tr" && ir then (it, false, ic)
      else if is_cell_tag tag && ic then (it, ir, false)
      else f
  | Text _ => f
  end.

(** a table written inside the first cell of another table, which goes on
    with further rows *)
Definition nested_document (text : string) (inner rest : list (list CellSpec))
  : Markup :=
  [StartTag "table" []; StartTag "tr" []; StartTag "td" []; Text text]
  ++ render_table inner
  ++ [EndTag "td"; EndTag "tr"]
  ++ concat (map render_row rest)
  ++ [EndTag "table"].

(** * Properties *)

(** ** The extractor: live references, discarded empties *)

Section StoreLemmas.
Context {A : Type}.
Implicit Types (l : list (list A)) (i j : nat) (a : A).

Lemma lookup_total_snoc_alter l i j a :
  alter (fun x => x ++ [a]) j l !!! i =
  if decide (i = j /\ j < length l) then l !!! i ++ [a] else l !!! i.
Proof.
  case_decide as H.
  - destruct H as [-> H]. by rewrite list_lookup_total_alter_eq.
  - destruct (decide (i = j)) as [->|Hne].
    + rewrite !list_lookup_total_alt, list_lookup_alter_eq.
      rewrite (lookup_ge_None_2 l j); [done | lia].
    + by rewrite list_lookup_total_alter_ne.
Qed.

Lemma lookup_total_snoc_alter_nonnil l i j a :
  l !!! i <> [] -> alter (fun x => x ++ [a]) j l !!! i <> [].
Proof.
  rewrite lookup_total_snoc_alter. case_decide; [|done].
  intros _. by destruct (l !!! i).
Qed.

Lemma lookup_total_grow l i (x : list A) :
  l !!! i <> [] -> (l ++ [x]) !!! i = l !!! i.
Proof.
  intros H. destruct (decide (i < length l)).
  - by rewrite lookup_total_app_l.
  - exfalso. apply H. rewrite list_lookup_total_alt.
    rewrite lookup_ge_None_2; [done | lia].
Qed.
End StoreLemmas.


Lemma store_ok_init : store_ok init.
Proof.
  split; cbn; try lia; repeat constructor.
Qed.

Lemma nonempty_true {A} (l : list A) : nonempty l = true <-> l <> [].
Proof. destruct l; cbn; split; congruence. Qed.

Lemma store_ok_starttag p tag attrs :
  store_ok p -> store_ok (handle_starttag p tag attrs).
Proof.
  intros [Hct Hcr Ht Hr Htn Hrn]. unfold handle_starttag.
  destruct (String.eqb tag "table").
  { split; cbn; rewrite ?length_app; cbn; try lia.
    - eapply Forall_impl; [exact Ht|]. cbn. lia.
    - apply Forall_app. split; [done | by repeat constructor].
    - eapply Forall_impl; [exact Htn|]. cbn. unfold table_at. cbn.
      intros t Hne. by rewrite lookup_total_grow.
    - apply Forall_app. split; [done | by repeat constructor]. }
  destruct (String.eqb tag "tr" && in_table p).
  { split; cbn; rewrite ?length_app; cbn; try lia; try done.
    - eapply Forall_impl; [exact Hr|]. cbn. intros t Hf.
      eapply Forall_impl; [exact Hf|]. cbn. lia.
    - eapply Forall_impl; [exact Hrn|]. cbn. intros t Hf.
      eapply Forall_impl; [exact Hf|]. cbn. unfold row_at. cbn.
      intros r Hne. by rewrite lookup_total_grow. }
  destruct (is_cell_tag tag && in_row p); [by split|].
  destruct (String.eqb tag "a" && in_cell p); by split.
Qed.

Lemma store_ok_endtag p tag : store_ok p -> store_ok (handle_endtag p tag).
Proof.
  intros [Hct Hcr Ht Hr Htn Hrn]. unfold handle_endtag.
  destruct (String.eqb tag "table").
  { split; cbn; try done.
    - destruct (nonempty _); [|done]. apply Forall_app. split; [done|].
      by repeat constructor.
    - destruct (nonempty _) eqn:E; [|done]. apply Forall_app. split; [done|].
      repeat constructor. by apply nonempty_true in E. }
  destruct (String.eqb tag "tr" && in_row p).
  { destruct (nonempty (row_at p (current_row p))) eqn:E; [|by split].
    apply nonempty_true in E.
    split; cbn; rewrite ?length_alter; try done.
    - apply Forall_alter; [done|]. intros t _ Hf.
      apply Forall_app. split; [done | by repeat constructor].
    - eapply Forall_impl; [exact Htn|]. cbn. unfold table_at. cbn.
      intros t. apply lookup_total_snoc_alter_nonnil.
    - apply Forall_alter; [done|]. intros t _ Hf.
      apply Forall_app. split; [done | by repeat constructor]. }
  destruct (is_cell_tag tag && in_cell p); [|by split].
  split; cbn; rewrite ?length_alter; try done.
  eapply Forall_impl; [exact Hrn|]. cbn. intros t Hf.
  eapply Forall_impl; [exact Hf|]. cbn. unfold row_at. cbn.
  intros r. apply lookup_total_snoc_alter_nonnil.
Qed.

Lemma store_ok_handle p tok : store_ok p -> store_ok (handle p tok).
Proof.
  destruct tok; cbn.
  - apply store_ok_starttag.
  - apply store_ok_endtag.
  - unfold handle_data. intros H. destruct (in_cell p); [|done].
    destruct H. by split.
Qed.

Lemma store_ok_feed_from html : forall p, store_ok p -> store_ok (feed_from p html).
Proof.
  unfold feed_from. induction html as [|tok html IH]; cbn; [done|].
  intros p H. apply IH. by apply store_ok_handle.
Qed.

Lemma feed_from_app p html1 html2 :
  feed_from p (html1 ++ html2) = feed_from (feed_from p html1) html2.
Proof. unfold feed_from. apply fold_left_app. Qed.

Lemma feed_app html1 html2 :
  feed (html1 ++ html2) = feed_from (feed html1) html2.
Proof. apply feed_from_app. Qed.

Lemma table_value_nonnil p t : table_at p t <> [] -> table_value p t <> [].
Proof. unfold table_value. by destruct (table_at p t). Qed.

Lemma table_value_rows_nonnil p t :
  store_ok p -> t < length (table_store p) ->
  Forall (fun r : Row => r <> []) (table_value p t).
Proof.
  intros Hok Hlt. unfold table_value. apply Forall_map.
  pose proof (ok_rows_nonempty p Hok) as H.
  rewrite Forall_lookup in H. apply (H t).
  unfold table_at. by apply list_lookup_lookup_total_lt.
Qed.

(** Whatever sequence of handler calls a document triggers, closed or
    unclosed, nested well or badly, the handlers run through it and hand
    back tables and links: no handler can fail, every reference the result
    follows is live, and no returned table or row is empty. *)
Lemma handlers_total (html : Markup) :
  exists (tbls : list Table) (lnks : list (option string)),
    extract html = (tbls, lnks)
    /\ store_ok (feed html)
    /\ Forall (fun t : Table => t <> [] /\ Forall (fun r : Row => r <> []) t) tbls.
Proof.
  assert (Hok : store_ok (feed html))
    by (apply store_ok_feed_from, store_ok_init).
  exists (tables_of (feed html)), (links (feed html)).
  split; [done|]. split; [done|].
  unfold tables_of. apply Forall_map.
  pose proof (ok_tables _ Hok) as Ht. pose proof (ok_tables_nonempty _ Hok) as Hn.
  rewrite Forall_forall in Ht, Hn. apply Forall_forall. intros t Hin.
  split.
  - apply table_value_nonnil. by apply Hn.
  - apply table_value_rows_nonnil; [done|]. by apply Ht.
Qed.

(** C9, as the code has it.  The extractor fails exactly where the
    tokenizer of the standard library does.  On a text the tokenizer goes
    through, whatever handler calls it makes (tags left open, closed twice,
    nested badly), the extractor hands back its tables and links, with
    every reference live and no empty table or row, and the detail stage
    returns its dictionary.  On a text the tokenizer gives up on, [feed]
    raises, the extractor catches nothing, and the listing stage and the
    detail stage raise the same error. *)
Theorem extract_text_fails_with_tokenizer_only (html_content : Html) :
  match html_content with
  | Tokens calls =>
      exists (tbls : list Table) (lnks : list (option string)),
        extract_text html_content = Ok (tbls, lnks)
        /\ extract calls = (tbls, lnks)
        /\ store_ok (feed calls)
        /\ Forall (fun t : Table =>
                     t <> [] /\ Forall (fun r : Row => r <> []) t) tbls
        /\ scrape_contract_detail_text html_content
           = Ok (scrape_contract_detail calls)
  | GivesUp e =>
      extract_text html_content = Raise e
      /\ scrape_contract_detail_text html_content = Raise e
      /\ forall (urljoin : string -> string -> result string) (base_url : string),
          Root.parse_repository_page_text urljoin html_content base_url = Raise e
          /\ Api.parse_repository_page_text urljoin html_content base_url
             = Raise e
  end.
Proof.
  destruct html_content as [calls|e].
  - destruct (handlers_total calls) as (tbls & lnks & E & Hok & Hne).
    exists tbls, lnks. unfold extract_text. cbn [parser_feed]. rewrite E.
    by split; [|split; [|split; [|split]]].
  - by split; [|split].
Qed.

(** C9 as stated fails: on the text <![x]> the tokenizer raises inside
    [feed]; no tables and no links come out, the listing stage and the
    detail stage raise with it, and a run whose listing is this text ends
    with this error. *)
Lemma marked_section_raises :
  let e := AssertionError "unknown status keyword 'x' in marked section" in
  extract_text marked_section_text = Raise e
  /\ ~ (exists r, extract_text marked_section_text = Ok r)
  /\ scrape_contract_detail_text marked_section_text = Raise e
  /\ (forall (urljoin : string -> string -> result string) (base_url : string),
        Root.parse_repository_page_text urljoin marked_section_text base_url
        = Raise e
        /\ Api.parse_repository_page_text urljoin marked_section_text base_url
           = Raise e)
  /\ Root.process_repository request_with_scheme unreadable_urlopen
       urljoin_concat "http://idot/" tt = (Raise e, tt)
  /\ Api.process_repository request_with_scheme unreadable_urlopen
       urljoin_concat "http://idot/" tt = (Raise e, tt).
Proof.
  cbn zeta. split; [reflexivity|]. split; [by intros (r & H)|].
  split; [reflexivity|]. split; [by split|]. split; reflexivity.
Qed.

(** ** The extractor: a closed table stays current *)


Lemma tables_handle p tok : tables p `prefix_of` tables (handle p tok).
Proof.
  destruct tok as [tag attrs|tag|data]; cbn.
  - unfold handle_starttag.
    repeat (match goal with |- context [if ?b then _ else _] => destruct b end);
      done.
  - unfold handle_endtag.
    destruct (String.eqb tag "table"); cbn.
    { destruct (nonempty _); [by apply prefix_app_r | done]. }
    repeat (match goal with |- context [if ?b then _ else _] => destruct b end);
      done.
  - unfold handle_data. by destruct (in_cell p).
Qed.

Lemma tables_feed_from html : forall p, tables p `prefix_of` tables (feed_from p html).
Proof.
  unfold feed_from. induction html as [|tok html IH]; cbn; [done|].
  intros p. etrans; [apply tables_handle | apply IH].
Qed.

Lemma table_at_handle p tok t : table_at p t <> [] -> table_at (handle p tok) t <> [].
Proof.
  intros Hne. destruct tok as [tag attrs|tag|data]; cbn.
  - unfold handle_starttag.
    destruct (String.eqb tag "table").
    { unfold table_at in *. cbn. by rewrite lookup_total_grow. }
    repeat (match goal with |- context [if ?b then _ else _] => destruct b end);
      done.
  - unfold handle_endtag.
    destruct (String.eqb tag "table"); [done|].
    destruct (String.eqb tag "tr" && in_row p).
    { destruct (nonempty _); [|done]. unfold table_at in *. cbn.
      by apply lookup_total_snoc_alter_nonnil. }
    by destruct (is_cell_tag tag && in_cell p).
  - unfold handle_data. by destruct (in_cell p).
Qed.

Lemma table_at_feed_from html :
  forall p t, table_at p t <> [] -> table_at (feed_from p html) t <> [].
Proof.
  unfold feed_from. induction html as [|tok html IH]; cbn; [done|].
  intros p t H. by apply IH, table_at_handle.
Qed.

Lemma current_table_handle p tok :
  opens_table tok = false -> current_table (handle p tok) = current_table p.
Proof.
  destruct tok as [tag attrs|tag|data]; cbn.
  - intros E. unfold handle_starttag. rewrite E.
    repeat (match goal with |- context [if ?b then _ else _] => destruct b end);
      done.
  - intros _. unfold handle_endtag.
    repeat (match goal with |- context [if ?b then _ else _] => destruct b end);
      done.
  - intros _. unfold handle_data. by destruct (in_cell p).
Qed.

Lemma current_table_feed_from html :
  forall p, Forall (fun tok => opens_table tok = false) html ->
            current_table (feed_from p html) = current_table p.
Proof.
  unfold feed_from. induction html as [|tok html IH]; cbn; [done|].
  intros p H. inversion H; subst. rewrite IH by done.
  by apply current_table_handle.
Qed.

Lemma endtag_table p :
  table_at p (current_table p) <> [] ->
  tables (handle_endtag p "table") = tables p ++ [current_table p]
  /\ current_table (handle_endtag p "table") = current_table p
  /\ table_at (handle_endtag p "table") (current_table p) <> [].
Proof.
  intros H. unfold handle_endtag. cbn.
  apply nonempty_true in H as E. rewrite E. by repeat split.
Qed.

(** C10.  Once a table with at least one row has been closed, a further
    table end tag met before any table start tag appends that same table
    object to [tables] again: the current-table reference is not cleared on
    closing and the end-tag handler does not look at [in_table].  The
    table is therefore read twice from the result. *)
Theorem closed_table_appended_again (pre mid post : Markup) :
  let p := feed pre in
  let r := current_table p in
  table_at p r <> [] ->
  Forall (fun tok => opens_table tok = false) mid ->
  let before := feed (pre ++ [EndTag "table"] ++ mid) in
  let after := feed (pre ++ [EndTag "table"] ++ mid ++ [EndTag "table"]) in
  let final := feed (pre ++ [EndTag "table"] ++ mid ++ [EndTag "table"] ++ post) in
  tables (feed (pre ++ [EndTag "table"])) = tables p ++ [r]
  /\ tables after = tables before ++ [r]
  /\ exists l2 l3,
      tables final = tables p ++ [r] ++ l2 ++ [r] ++ l3
      /\ tables_of final =
           map (table_value final) (tables p) ++ [table_value final r]
           ++ map (table_value final) l2 ++ [table_value final r]
           ++ map (table_value final) l3
      /\ table_value final r <> [].
Proof.
  intros p r Hne Hmid before after final.
  destruct (endtag_table p Hne) as (Ht1 & Hc1 & Hn1).
  set (p1 := handle_endtag p "table") in *.
  assert (E1 : feed (pre ++ [EndTag "table"]) = p1).
  { rewrite feed_app. done. }
  assert (Eb : before = feed_from p1 mid).
  { unfold before. rewrite app_assoc, feed_app. by rewrite E1. }
  assert (Hcb : current_table before = r).
  { rewrite Eb, current_table_feed_from by done. exact Hc1. }
  assert (Hnb : table_at before r <> []).
  { rewrite Eb. by apply table_at_feed_from. }
  assert (Ea : after = handle_endtag before "table").
  { unfold after, before. rewrite !app_assoc. rewrite feed_app. done. }
  assert (Hta : tables after = tables before ++ [r]).
  { rewrite Ea. rewrite <- Hcb in Hnb.
    destruct (endtag_table before Hnb) as (H & _ & _). by rewrite H, Hcb. }
  assert (Ef : final = feed_from after post).
  { unfold final, after.
    replace (pre ++ [EndTag "table"] ++ mid ++ [EndTag "table"] ++ post)
      with ((pre ++ [EndTag "table"] ++ mid ++ [EndTag "table"]) ++ post)
      by (by rewrite <- !app_assoc).
    by rewrite feed_app. }
  split; [by rewrite E1|]. split; [done|].
  destruct (tables_feed_from mid p1) as [l2 Hl2].
  destruct (tables_feed_from post after) as [l3 Hl3].
  exists l2, l3.
  assert (Htf : tables final = tables p ++ [r] ++ l2 ++ [r] ++ l3).
  { rewrite Ef, Hl3, Hta, Eb, Hl2, Ht1. by rewrite <- !app_assoc. }
  split; [done|]. split.
  - unfold tables_of. rewrite Htf. by rewrite !map_app.
  - apply table_value_nonnil. rewrite Ef. apply table_at_feed_from.
    rewrite Ea. rewrite <- Hcb in Hnb |- *.
    by destruct (endtag_table before Hnb) as (_ & _ & H).
Qed.

Lemma closed_table_appended_again_witness :
  let pre := [StartTag "table" []; StartTag "tr" []; StartTag "td" [];
              Text "a"; EndTag "td"; EndTag "tr"] in
  table_at (feed pre) (current_table (feed pre)) <> []
  /\ exists l2 l3,
      tables (feed (pre ++ [EndTag "table"] ++ [] ++ [EndTag "table"] ++ []))
      = tables (feed pre) ++ [current_table (feed pre)] ++ l2
        ++ [current_table (feed pre)] ++ l3.
Proof.
  intros pre.
  assert (H : table_at (feed pre) (current_table (feed pre)) <> [])
    by (vm_compute; discriminate).
  split; [exact H|].
  destruct (closed_table_appended_again pre [] [] H (Forall_nil_2 _))
    as (_ & _ & l2 & l3 & Ht & _).
  exists l2, l3. exact Ht.
Defined.

(** ** The listing stage *)

Lemma mem_true x l : mem x l = true <-> x ∈ l.
Proof.
  unfold mem. rewrite existsb_exists. rewrite list_elem_of_In. split.
  - intros (y & Hin & E). apply String.eqb_eq in E. by subst.
  - intros Hin. exists x. split; [done | apply String.eqb_refl].
Qed.

Lemma mem_false x l : mem x l = false <-> x ∉ l.
Proof.
  rewrite <- mem_true. destruct (mem x l); split; congruence.
Qed.


Lemma dedup_into_NoDup urls : forall seen, NoDup seen -> NoDup (dedup_into seen urls).
Proof.
  unfold dedup_into. induction urls as [|u urls IH]; cbn; [done|].
  intros seen Hnd. apply IH. destruct (mem u seen) eqn:E; [done|].
  apply mem_false in E. apply NoDup_app. repeat split; [done| |].
  - intros x Hx Hin. apply list_elem_of_singleton in Hin. by subst.
  - apply NoDup_singleton.
Qed.

Lemma dedup_into_elem urls : forall seen x,
  x ∈ dedup_into seen urls <-> x ∈ seen \/ x ∈ urls.
Proof.
  unfold dedup_into. induction urls as [|u urls IH]; cbn; intros seen x.
  - rewrite elem_of_nil. tauto.
  - rewrite IH. rewrite elem_of_cons. destruct (mem u seen) eqn:E.
    + apply mem_true in E. split; [tauto|]. intros [H|[->|H]]; tauto.
    + rewrite elem_of_app, list_elem_of_singleton. tauto.
Qed.

Lemma dedup_into_length urls : forall seen,
  length (dedup_into seen urls) <= length seen + length urls.
Proof.
  unfold dedup_into. induction urls as [|u urls IH]; cbn; intros seen; [lia|].
  etrans; [apply IH|]. destruct (mem u seen); rewrite ?length_app; cbn; lia.
Qed.

Lemma dedup_into_fresh urls : forall seen,
  NoDup (seen ++ urls) -> dedup_into seen urls = seen ++ urls.
Proof.
  unfold dedup_into. induction urls as [|u urls IH]; cbn; intros seen Hnd.
  - by rewrite app_nil_r.
  - apply NoDup_app in Hnd as (H1 & H2 & H3).
    assert (E : mem u seen = false).
    { apply mem_false. intros Hin. apply (H2 u Hin). by left. }
    rewrite E. rewrite IH; [by rewrite <- app_assoc|].
    rewrite <- app_assoc. cbn. apply NoDup_app. by repeat split.
Qed.

(** [first_seen] keeps the first occurrence of every URL, in order. *)
Lemma dedup_into_filter urls : forall seen,
  dedup_into seen urls = seen ++ filter (fun x => x ∉ seen) (first_seen urls).
Proof.
  unfold first_seen. fold (dedup_into [] urls).
  induction urls as [|u urls IH]; intros seen.
  - cbn. by rewrite app_nil_r.
  - assert (Hu : dedup_into [] (u :: urls) = u :: filter (fun x => x ∉ [u]) (dedup_into [] urls)).
    { change (dedup_into [] (u :: urls)) with (dedup_into [u] urls).
      by rewrite (IH [u]). }
    rewrite Hu.
    change (dedup_into seen (u :: urls))
      with (dedup_into (if mem u seen then seen else seen ++ [u]) urls).
    destruct (mem u seen) eqn:E.
    + apply mem_true in E. rewrite IH. f_equal.
      rewrite filter_cons_False by (intros H; by apply H).
      rewrite list_filter_filter. apply list_filter_iff.
      intros x. split; [|tauto]. intros H. split; [done|].
      intros Hx. apply list_elem_of_singleton in Hx. by subst.
    + apply mem_false in E. rewrite IH. rewrite <- app_assoc. f_equal.
      rewrite filter_cons_True by done. cbn. f_equal.
      rewrite list_filter_filter. apply list_filter_iff.
      intros x. rewrite not_elem_of_app. tauto.
Qed.

Lemma first_seen_cons u urls :
  first_seen (u :: urls) = u :: filter (fun x => x <> u) (first_seen urls).
Proof.
  change (first_seen (u :: urls)) with (dedup_into [u] urls).
  rewrite dedup_into_filter. cbn. f_equal. apply list_filter_iff.
  intros x. rewrite list_elem_of_singleton. tauto.
Qed.

Lemma first_seen_NoDup urls : NoDup (first_seen urls).
Proof. apply (dedup_into_NoDup urls []), NoDup_nil_2. Qed.

Lemma first_seen_length urls : length (first_seen urls) <= length urls.
Proof. apply (dedup_into_length urls []). Qed.

Lemma first_seen_fresh urls : NoDup urls -> first_seen urls = urls.
Proof. intros H. by apply (dedup_into_fresh urls []). Qed.

Lemma first_seen_snoc urls u :
  first_seen (urls ++ [u])
  = if mem u (first_seen urls) then first_seen urls else first_seen urls ++ [u].
Proof. unfold first_seen. by rewrite fold_left_app. Qed.

Section ListingLemmas.
Variable urljoin : string -> string -> result string.
Variable base_url : string.

Lemma root_link_loop_raise lnks e :
  fold_left (Root.link_step urljoin base_url) lnks (Raise e) = Raise e.
Proof. induction lnks as [|l lnks IH]; [done|]. apply IH. Qed.

Lemma api_link_loop_raise lnks e :
  fold_left (Api.link_step urljoin base_url) lnks (Raise e) = Raise e.
Proof. induction lnks as [|l lnks IH]; [done|]. apply IH. Qed.

(** the link loop of [src/scrape.py] when every marker link resolves *)
Lemma root_link_loop targets : forall acc urls,
  resolves urljoin base_url targets urls ->
  fold_left (Root.link_step urljoin base_url) (map Some targets) (Ok acc)
  = Ok (acc ++ urls).
Proof.
  unfold resolves.
  induction targets as [|l targets IH]; intros acc urls H.
  - cbn in H. inversion H. cbn. by rewrite app_nil_r.
  - cbn [map fold_left Root.link_step].
    destruct (Py.contains marker l) eqn:E.
    + rewrite filter_cons_True in H by done.
      inversion H as [|? url ? urls' Hu Hrest]; subst.
      rewrite Hu, (IH _ urls') by done. by rewrite <- app_assoc.
    + rewrite filter_cons_False in H by (by rewrite E). by apply IH.
Qed.

(** the link loop of [src/api/scrape.py] keeps, step by step, the
    de-duplicated list of what the loop of [src/scrape.py] keeps *)
Lemma api_link_loop_follows lnks : forall acc,
  fold_left (Api.link_step urljoin base_url) lnks (Ok (first_seen acc))
  = match fold_left (Root.link_step urljoin base_url) lnks (Ok acc) with
    | Ok urls => Ok (first_seen urls)
    | Raise e => Raise e
    end.
Proof.
  induction lnks as [|link lnks IH]; intros acc; [done|].
  cbn [fold_left Api.link_step Root.link_step].
  destruct link as [l|].
  - destruct (Py.contains marker l); [|apply IH].
    destruct (urljoin base_url l) as [u|e].
    + rewrite <- IH, first_seen_snoc. by destruct (mem u (first_seen acc)).
    + by rewrite api_link_loop_raise, root_link_loop_raise.
  - by rewrite api_link_loop_raise, root_link_loop_raise.
Qed.
End ListingLemmas.

Lemma api_row_step_matching q f row :
  Api.row_step (q, f) row =
  if row_matches row then
    match q with
    | [] => (q, f)
    | url :: q' => if mem url f then (q', f) else (q', f ++ [url])
    end
  else (q, f).
Proof.
  unfold Api.row_step, row_matches.
  destruct (length row <? 3); cbn; [done|].
  by destruct (has_valid_county (row_text row)),
              (has_valid_status (row_text row)).
Qed.

Lemma api_row_loop rows : forall q f,
  NoDup (f ++ q) ->
  let n := length (filter (fun row => row_matches row = true) rows) in
  fold_left Api.row_step rows (q, f) = (drop n q, f ++ take n q).
Proof.
  induction rows as [|row rows IH]; intros q f Hnd.
  - cbn. by rewrite app_nil_r.
  - cbn [fold_left]. rewrite api_row_step_matching.
    destruct (row_matches row) eqn:E.
    + rewrite filter_cons_True by done. cbn [length]. destruct q as [|url q'].
      * rewrite IH by done. cbn. by rewrite !drop_nil, !take_nil.
      * assert (M : mem url f = false).
        { apply mem_false. intros Hin. apply NoDup_app in Hnd as (_ & H & _).
          apply (H url Hin). by left. }
        rewrite M. rewrite IH.
        -- cbn. by rewrite <- app_assoc.
        -- by rewrite <- app_assoc.
    + rewrite filter_cons_False by (by rewrite E). by apply IH.
Qed.

Lemma api_table_loop tbls : forall st,
  fold_left Api.table_step tbls st = fold_left Api.row_step (concat tbls) st.
Proof.
  induction tbls as [|t tbls IH]; intros st; cbn; [done|].
  rewrite fold_left_app. apply IH.
Qed.

Lemma marker_links_valued html targets :
  links (feed html) = map Some targets ->
  marker_links html
  = length (filter (fun l => Py.contains marker l = true) targets).
Proof.
  unfold marker_links. intros ->. induction targets as [|l targets IH]; [done|].
  cbn [map]. destruct (Py.contains marker l) eqn:E.
  - rewrite !filter_cons_True by done. cbn [length]. by rewrite IH.
  - rewrite !filter_cons_False by (cbn; by rewrite E). done.
Qed.

Lemma resolves_length urljoin base_url targets urls :
  resolves urljoin base_url targets urls ->
  length urls
  = length (filter (fun l => Py.contains marker l = true) targets).
Proof. intros H. symmetry. apply (Forall2_length _ _ _ H). Qed.

Lemma root_parse_valued urljoin html base_url targets urls :
  links (feed html) = map Some targets ->
  resolves urljoin base_url targets urls ->
  Root.parse_repository_page urljoin html base_url = Ok urls.
Proof.
  intros Hl Hr. unfold Root.parse_repository_page. cbn zeta.
  by rewrite Hl, (root_link_loop _ _ _ _ _ Hr).
Qed.

(** the result of [src/api/scrape.py] read off the result of [src/scrape.py] *)
Lemma api_parse_follows_root urljoin html base_url :
  Api.parse_repository_page urljoin html base_url
  = match Root.parse_repository_page urljoin html base_url with
    | Ok urls => Ok (take (matching_rows html) (first_seen urls))
    | Raise e => Raise e
    end.
Proof.
  unfold Api.parse_repository_page, Root.parse_repository_page. cbn zeta.
  change (Ok (A:=list string) []) with (Ok (first_seen [])) at 1.
  rewrite api_link_loop_follows.
  destruct (fold_left (Root.link_step urljoin base_url) _ (Ok [])) as [urls|e];
    [|done].
  rewrite api_table_loop, api_row_loop; [done|].
  cbn. apply first_seen_NoDup.
Qed.

Lemma api_parse_valued urljoin html base_url targets urls :
  links (feed html) = map Some targets ->
  resolves urljoin base_url targets urls ->
  Api.parse_repository_page urljoin html base_url
  = Ok (take (matching_rows html) (first_seen urls)).
Proof.
  intros Hl Hr.
  by rewrite api_parse_follows_root, (root_parse_valued _ _ _ _ _ Hl Hr).
Qed.

(** C1, as the code has it ([src/api/scrape.py]).  When every captured
    [href] has a value and [urljoin] resolves every marker link, the result
    is the list of resolved marker links, de-duplicated in first-seen order
    and cut to N.  N counts the matching rows among the rows of the tables
    the extractor returns, so a table returned twice has its rows counted
    twice.  The k-th such row takes the k-th distinct URL.  The result has
    min(N, D) entries, D being the number of distinct resolved URLs; D is
    at most M, and equals M when the resolved links are pairwise distinct. *)
Theorem api_parse_repository_page_first_seen
    (urljoin : string -> string -> result string) (html : Markup)
    (base_url : string) (targets resolved_urls : list string) :
  links (feed html) = map Some targets ->
  resolves urljoin base_url targets resolved_urls ->
  let urls := first_seen resolved_urls in
  let N := matching_rows html in
  Api.parse_repository_page urljoin html base_url = Ok (take N urls)
  /\ NoDup (take N urls)
  /\ length (take N urls) = N `min` length urls
  /\ length urls <= marker_links html
  /\ (NoDup resolved_urls ->
      urls = resolved_urls
      /\ length (take N urls) = N `min` marker_links html).
Proof.
  intros Hl Hr urls N.
  assert (HM : marker_links html = length resolved_urls).
  { by rewrite (marker_links_valued html targets Hl),
               (resolves_length _ _ _ _ Hr). }
  split; [|split; [|split; [|split]]].
  - by apply api_parse_valued with targets.
  - eapply sublist_NoDup; [apply first_seen_NoDup | apply sublist_take].
  - apply length_take.
  - rewrite HM. apply first_seen_length.
  - intros Hnd. assert (E : urls = resolved_urls)
      by (by apply first_seen_fresh).
    split; [done|]. rewrite length_take, E, HM. done.
Qed.

Lemma api_parse_repository_page_first_seen_witness :
  links (feed duplicate_listing)
    = map Some ["LbContractDetail/1"; "LbContractDetail/1"]
  /\ resolves urljoin_concat "http://idot/"
       ["LbContractDetail/1"; "LbContractDetail/1"]
       ["http://idot/LbContractDetail/1"; "http://idot/LbContractDetail/1"]
  /\ Api.parse_repository_page urljoin_concat duplicate_listing "http://idot/"
     = Ok ["http://idot/LbContractDetail/1"].
Proof.
  assert (H : links (feed duplicate_listing)
              = map Some ["LbContractDetail/1"; "LbContractDetail/1"])
    by reflexivity.
  assert (Hr : resolves urljoin_concat "http://idot/"
                 ["LbContractDetail/1"; "LbContractDetail/1"]
                 ["http://idot/LbContractDetail/1";
                  "http://idot/LbContractDetail/1"])
    by (by repeat constructor).
  split; [exact H|]. split; [exact Hr|].
  destruct (api_parse_repository_page_first_seen urljoin_concat
              duplicate_listing "http://idot/" _ _ H Hr) as (E & _).
  rewrite E. reflexivity.
Defined.

(** X7.  The variant of [src/scrape.py], when every captured [href] has a
    value and [urljoin] resolves every marker link, returns every resolved
    marker link, in document order, whatever the rows say and without
    de-duplication. *)
Lemma root_parse_repository_page_all_links
    (urljoin : string -> string -> result string) (html : Markup)
    (base_url : string) (targets urls : list string) :
  links (feed html) = map Some targets ->
  resolves urljoin base_url targets urls ->
  Root.parse_repository_page urljoin html base_url = Ok urls.
Proof. apply root_parse_valued. Qed.

(** C1 as stated fails: two matching rows and two marker links (N = M = 2)
    that resolve to one URL give one URL, not min(N, M) = 2. *)
Lemma api_parse_repository_page_duplicate_links :
  well_formed duplicate_listing = true
  /\ matching_rows duplicate_listing = 2
  /\ marker_links duplicate_listing = 2
  /\ forall (urljoin : string -> string -> result string) (base_url url : string),
      urljoin base_url "LbContractDetail/1" = Ok url ->
      Api.parse_repository_page urljoin duplicate_listing base_url = Ok [url]
      /\ ~ (exists urls,
              Api.parse_repository_page urljoin duplicate_listing base_url
              = Ok urls
              /\ length urls
                 = matching_rows duplicate_listing
                   `min` marker_links duplicate_listing).
Proof.
  split; [reflexivity|]. split; [reflexivity|]. split; [reflexivity|].
  intros urljoin base_url url Hu.
  assert (E : Api.parse_repository_page urljoin duplicate_listing base_url
              = Ok [url]).
  { rewrite (api_parse_valued urljoin duplicate_listing base_url
               ["LbContractDetail/1"; "LbContractDetail/1"] [url; url]);
      [|reflexivity | by repeat constructor].
    rewrite first_seen_cons.
    change (first_seen [url]) with [url].
    rewrite filter_cons_False by (intros H; by apply H). reflexivity. }
  split; [exact E|].
  intros (urls & E' & Hlen). rewrite E in E'. injection E' as <-.
  vm_compute in Hlen. discriminate.
Qed.

(** ** Writing the report and reading it back *)

Lemma append_cons c a b : String c a +:+ b = String c (a +:+ b).
Proof. reflexivity. Qed.

Lemma append_nil_l a : EmptyString +:+ a = a.
Proof. reflexivity. Qed.

Lemma append_nil_r a : a +:+ EmptyString = a.
Proof. induction a as [|c a IH]; [done|]. by rewrite append_cons, IH. Qed.

Lemma append_assoc a b c : (a +:+ b) +:+ c = a +:+ (b +:+ c).
Proof. induction a as [|x a IH]; [done|]. by rewrite !append_cons, IH. Qed.

Module ReaderFacts.
Import CsvReader.

Lemma run_app a : forall b s, run (a +:+ b) s = run b (run a s).
Proof.
  induction a as [|c a IH]; intros b s; [done|].
  rewrite append_cons. cbn [run]. apply IH.
Qed.

Lemma special_false c :
  Csv.special c = false ->
  Ascii.eqb c Csv.comma = false /\ Ascii.eqb c Csv.quote = false
  /\ Ascii.eqb c Csv.CR = false /\ Ascii.eqb c Csv.LF = false.
Proof.
  unfold Csv.special. rewrite !orb_false_iff. tauto.
Qed.

(** plain characters inside an unquoted field *)
Lemma run_in_field f : forall fl rc rcs,
  Csv.needs_quotes f = false ->
  run f (mk InField fl rc rcs) = mk InField (fl +:+ f) rc rcs.
Proof.
  induction f as [|c f IH]; intros fl rc rcs H.
  - by rewrite append_nil_r.
  - cbn [Csv.needs_quotes] in H. apply orb_false_iff in H as [Hc Hf].
    apply special_false in Hc as (E1 & E2 & E3 & E4).
    cbn [run]. unfold step. cbn [mode_of]. rewrite E1, E3, E4.
    unfold add. cbn [field record records]. rewrite IH by done.
    by rewrite append_assoc.
Qed.

(** the body of a quoted field *)
Lemma run_in_quoted f : forall fl rc rcs,
  run (Csv.double_quotes f) (mk InQuoted fl rc rcs)
  = mk InQuoted (fl +:+ f) rc rcs.
Proof.
  induction f as [|c f IH]; intros fl rc rcs.
  - by rewrite append_nil_r.
  - cbn [Csv.double_quotes]. destruct (Ascii.eqb c Csv.quote) eqn:E.
    + apply Ascii.eqb_eq in E. subst c.
      cbn [run]. unfold step at 2. cbn [mode_of]. rewrite Ascii.eqb_refl.
      unfold goto. cbn [field record records].
      unfold step. cbn [mode_of]. rewrite Ascii.eqb_refl.
      unfold add. cbn [field record records]. rewrite IH.
      by rewrite append_assoc.
    + cbn [run]. unfold step. cbn [mode_of]. rewrite E.
      unfold add. cbn [field record records]. rewrite IH.
      by rewrite append_assoc.
Qed.


(** where the reader stands once a written field has gone by: inside an
    unquoted field, just past a closing quote, or, the field being empty,
    where it started *)
Lemma run_write_field f m rc rcs :
  field_start m ->
  exists m',
    run (Csv.write_field f) (mk m EmptyString rc rcs) = mk m' f rc rcs
    /\ (m' = InField \/ m' = QuoteInQuoted \/ (f = EmptyString /\ m' = m)).
Proof.
  intros Hm. unfold Csv.write_field.
  destruct (Csv.needs_quotes f) eqn:Q.
  - exists QuoteInQuoted. split; [|tauto]. cbn [run].
    assert (E : step (mk m EmptyString rc rcs) Csv.quote
                = mk InQuoted EmptyString rc rcs).
    { unfold step. cbn [mode_of]. destruct Hm as [->| ->];
        unfold start; by rewrite Ascii.eqb_refl. }
    rewrite E, run_app, run_in_quoted. cbn [run].
    unfold step. cbn [mode_of]. by rewrite Ascii.eqb_refl.
  - destruct f as [|c f].
    + exists m. split; [done | tauto].
    + exists InField. split; [|tauto].
      cbn [Csv.needs_quotes] in Q. apply orb_false_iff in Q as [Hc Hf].
      apply special_false in Hc as (E1 & E2 & E3 & E4).
      cbn [run].
      assert (E : step (mk m EmptyString rc rcs) c
                  = mk InField (String c EmptyString) rc rcs).
      { unfold step. cbn [mode_of]. destruct Hm as [->| ->];
          unfold start; by rewrite E1, E2, E3, E4. }
      by rewrite E, run_in_field.
Qed.

Lemma run_field_comma f m rc rcs rest :
  field_start m ->
  run (Csv.write_field f +:+ String Csv.comma rest) (mk m EmptyString rc rcs)
  = run rest (mk StartField EmptyString (rc ++ [f]) rcs).
Proof.
  intros Hm. rewrite run_app.
  destruct (run_write_field f m rc rcs Hm) as (m' & -> & Hm').
  cbn [run]. f_equal.
  destruct Hm' as [->|[->|[-> ->]]]; [done..|].
  by destruct Hm as [->| ->].
Qed.

Lemma run_field_crlf f rc rcs rest :
  run (Csv.write_field f +:+ Csv.lineterminator +:+ rest)
      (mk StartField EmptyString rc rcs)
  = run rest (mk StartRecord EmptyString [] (rcs ++ [rc ++ [f]])).
Proof.
  rewrite run_app.
  destruct (run_write_field f StartField rc rcs) as (m' & -> & Hm');
    [by right|].
  unfold Csv.lineterminator. rewrite !append_cons, append_nil_l.
  cbn [run]. f_equal.
  by destruct Hm' as [->|[->|[-> ->]]].
Qed.

Lemma writerow_four a b c d :
  Csv.writerow [a; b; c; d]
  = Csv.write_field a +:+ String Csv.comma
      (Csv.write_field b +:+ String Csv.comma
         (Csv.write_field c +:+ String Csv.comma
            (Csv.write_field d +:+ Csv.lineterminator))).
Proof.
  assert (E : Csv.writerow [a; b; c; d]
              = Py.join (String Csv.comma EmptyString)
                  (map Csv.write_field [a; b; c; d]) +:+ Csv.lineterminator)
    by (by destruct a).
  rewrite E. unfold Py.join. cbn [map String.concat].
  rewrite !append_assoc. by rewrite !append_cons, !append_nil_l.
Qed.

Lemma run_writerow a b c d rcs rest :
  run (Csv.writerow [a; b; c; d] +:+ rest) (mk StartRecord EmptyString [] rcs)
  = run rest (mk StartRecord EmptyString [] (rcs ++ [[a; b; c; d]])).
Proof.
  rewrite writerow_four.
  rewrite !append_assoc, append_cons, run_field_comma by (by left).
  rewrite !append_assoc, append_cons, run_field_comma by (by right).
  rewrite !append_assoc, append_cons, run_field_comma by (by right).
  rewrite !append_assoc. by rewrite run_field_crlf.
Qed.

Lemma writerows_from rows : forall out,
  fold_left (fun out row => out +:+ Csv.writerow row) rows out
  = out +:+ Csv.writerows rows.
Proof.
  unfold Csv.writerows.
  induction rows as [|row rows IH]; intros out; cbn [fold_left].
  - by rewrite append_nil_r.
  - rewrite IH, (IH (EmptyString +:+ Csv.writerow row)).
    by rewrite append_nil_l, append_assoc.
Qed.

Lemma writerows_cons row rows :
  Csv.writerows (row :: rows) = Csv.writerow row +:+ Csv.writerows rows.
Proof.
  unfold Csv.writerows at 1. cbn [fold_left].
  by rewrite writerows_from, append_nil_l.
Qed.

Lemma run_writerows results : forall rcs,
  run (Csv.writerows (map dict_to_list results))
      (mk StartRecord EmptyString [] rcs)
  = mk StartRecord EmptyString [] (rcs ++ map dict_to_list results).
Proof.
  induction results as [|r results IH]; intros rcs.
  - cbn. by rewrite app_nil_r.
  - cbn [map]. rewrite writerows_cons. unfold dict_to_list at 1.
    rewrite run_writerow, IH. by rewrite <- app_assoc.
Qed.

Lemma read_to_csv results :
  read (to_csv results) = fieldnames :: map dict_to_list results.
Proof.
  unfold read, to_csv, initial, fieldnames.
  by rewrite run_writerow, run_writerows.
Qed.

Lemma contracts_of_rows results :
  mapM contract_of
       (filter (fun r => nonempty r = true) (map dict_to_list results))
  = Some results.
Proof.
  induction results as [|[u b a w] results IH]; [done|].
  cbn [map]. rewrite filter_cons_True by done.
  cbn [mapM]. rewrite IH. done.
Qed.
End ReaderFacts.

(** C8.  Reading back the text [process_repository] writes for a list of
    records gives these records again, in order, whatever their fields
    hold: commas, quotes, carriage returns, line feeds, nothing at all. *)
Theorem report_round_trip (results : list Contract.t) :
  CsvReader.read_report (to_csv results) = Some results.
Proof.
  unfold CsvReader.read_report. rewrite ReaderFacts.read_to_csv.
  rewrite decide_True by done. apply ReaderFacts.contracts_of_rows.
Qed.

(** ** The per-contract loop *)

Lemma error_row_is_error url e : is_error_row (error_row url e).
Proof. unfold is_error_row, error_row. cbn. by repeat split. Qed.

Section BatchLemmas.
Context {World : Type}.
Variable fetch_url : string -> World -> result Html * World.

Lemma contract_row_for url w :
  row_for url (outcome (fst (fetch_url url w)))
          (fst (contract_row fetch_url url w))
  /\ Contract.contract_url (fst (contract_row fetch_url url w)) = url
  /\ snd (contract_row fetch_url url w) = snd (fetch_url url w).
Proof.
  unfold contract_row, outcome.
  destruct (fetch_url url w) as [[page|e] w1]; cbn [fst snd]; [|done].
  by destruct (scrape_contract_detail_text page) as [data|e].
Qed.


Lemma scrape_contracts_rows urls : forall results w,
  exists rows w',
    scrape_contracts fetch_url urls results w = (results ++ rows, w')
    /\ length rows = length urls
    /\ map Contract.contract_url rows = urls
    /\ Forall2 (fun ur row => row_for (fst ur) (snd ur) row)
               (zip urls (outcomes fetch_url urls w)) rows.
Proof.
  induction urls as [|url urls IH]; intros results w.
  - exists [], w. cbn. rewrite app_nil_r.
    split; [done|]. split; [done|]. split; [done | constructor].
  - cbn [scrape_contracts outcomes].
    destruct (contract_row_for url w) as (Hrow & Hurl & Hw).
    destruct (contract_row fetch_url url w) as [row w1] eqn:Ec.
    destruct (fetch_url url w) as [r w1'] eqn:Ef. cbn [fst snd] in Hrow, Hurl, Hw.
    subst w1'.
    destruct (IH (results ++ [row]) w1) as (rows & w' & E & Hlen & Hmap & Hall).
    exists (row :: rows), w'. rewrite E, <- app_assoc. cbn.
    split; [done|]. split; [by rewrite Hlen|].
    split; [by rewrite Hurl, Hmap | by constructor].
Qed.

(** the loop ends, and what it reports is one row per URL *)
Lemma scrape_contracts_report urls w :
  exists rows w',
    scrape_contracts fetch_url urls [] w = (rows, w')
    /\ one_row_per_url fetch_url urls w (to_csv rows) w'.
Proof.
  destruct (scrape_contracts_rows urls [] w)
    as (rows & w' & E & Hlen & Hmap & Hall).
  cbn [app] in E. exists rows, w'. split; [done|]. exists rows.
  split; [done|]. split; [done|]. split; [|by split; [|split]].
  unfold CsvReader.read_report.
  rewrite ReaderFacts.read_to_csv, decide_True by done.
  apply ReaderFacts.contracts_of_rows.
Qed.
End BatchLemmas.

Section RunLemmas.
Context {World : Type}.
Variable Request : string -> option exn.
Variable urlopen : string -> World -> (NetError + Html) * World.
Variable urljoin : string -> string -> result string.

Lemma root_fetch_url_ok url w html_content w1 :
  Request url = None -> urlopen url w = (inr html_content, w1) ->
  Root.fetch_url Request urlopen url w = (Ok html_content, w1).
Proof. intros HR E. unfold Root.fetch_url. by rewrite HR, E. Qed.

Lemma api_fetch_url_ok url w html_content w1 :
  Request url = None -> urlopen url w = (inr html_content, w1) ->
  Api.fetch_url Request urlopen url w = (Ok html_content, w1).
Proof. intros HR E. unfold Api.fetch_url. by rewrite HR, E. Qed.

Lemma root_process_repository_report repo_url w html_content w1 urls :
  Root.fetch_url Request urlopen repo_url w = (Ok html_content, w1) ->
  Root.parse_repository_page_text urljoin html_content repo_url = Ok urls ->
  urls <> [] ->
  exists csv w',
    Root.process_repository Request urlopen urljoin repo_url w = (Ok csv, w')
    /\ one_row_per_url (Root.fetch_url Request urlopen) urls w1 csv w'.
Proof.
  intros Ef Ep Hne. unfold Root.process_repository. rewrite Ef, Ep.
  apply nonempty_true in Hne. rewrite Hne.
  destruct (scrape_contracts_report (Root.fetch_url Request urlopen) urls w1)
    as (rows & w' & E & H).
  rewrite E. by exists (to_csv rows), w'.
Qed.

Lemma api_process_repository_report repo_url w html_content w1 urls :
  Api.fetch_url Request urlopen repo_url w = (Ok html_content, w1) ->
  Api.parse_repository_page_text urljoin html_content repo_url = Ok urls ->
  urls <> [] ->
  exists csv w',
    Api.process_repository Request urlopen urljoin repo_url w = (Ok csv, w')
    /\ one_row_per_url (Api.fetch_url Request urlopen) urls w1 csv w'.
Proof.
  intros Ef Ep Hne. unfold Api.process_repository. rewrite Ef, Ep.
  apply nonempty_true in Hne. rewrite Hne.
  destruct (scrape_contracts_report (Api.fetch_url Request urlopen) urls w1)
    as (rows & w' & E & H).
  rewrite E. by exists (to_csv rows), w'.
Qed.
End RunLemmas.

(** C2.  Once the listing has been fetched and has resolved to a list of
    URLs that is not empty, [process_repository] returns a report, whatever
    happens at the detail pages.  The report is the text written for one
    row per URL, in the order of the list, and reading that text back gives
    these rows.  The row of a URL is fixed by the outcome of its own fetch
    and extraction: the extracted fields when the page came back and was
    tokenized, and otherwise (the request could not be built, the fetch
    failed, or the tokenizer gave up on the page) a row whose [low_bidder]
    starts with ERROR: and whose [low_bid_amount] and [awardee] are empty.
    Both variants behave so. *)
Theorem process_repository_one_row_per_url {World : Type}
    (Request : string -> option exn)
    (urlopen : string -> World -> (NetError + Html) * World)
    (urljoin : string -> string -> result string)
    (repo_url : string) (w w1 : World) (html_content : Html)
    (urls : list string) :
  Request repo_url = None ->
  urlopen repo_url w = (inr html_content, w1) ->
  urls <> [] ->
  (Root.parse_repository_page_text urljoin html_content repo_url = Ok urls ->
   exists csv w',
     Root.process_repository Request urlopen urljoin repo_url w = (Ok csv, w')
     /\ one_row_per_url (Root.fetch_url Request urlopen) urls w1 csv w')
  /\ (Api.parse_repository_page_text urljoin html_content repo_url = Ok urls ->
      exists csv w',
        Api.process_repository Request urlopen urljoin repo_url w = (Ok csv, w')
        /\ one_row_per_url (Api.fetch_url Request urlopen) urls w1 csv w')
  /\ (forall url e row,
        row_for url (Raise e) row ->
        is_error_row row /\ Contract.contract_url row = url)
  /\ (forall e, outcome (Raise e) = Raise e)
  /\ (forall e, outcome (Ok (GivesUp e)) = Raise e)
  /\ (forall calls,
        outcome (Ok (Tokens calls)) = Ok (scrape_contract_detail calls)).
Proof.
  intros HR E Hne. split; [|split; [|split; [|by split; [|split]]]].
  - intros Hp. apply root_process_repository_report with html_content;
      [by apply root_fetch_url_ok | done..].
  - intros Hp. apply api_process_repository_report with html_content;
      [by apply api_fetch_url_ok | done..].
  - intros url e row Hrow. cbn in Hrow. subst row.
    split; [apply (error_row_is_error url e) | done].
Qed.

(** ** An example network *)

Lemma sample_run :
  Api.process_repository request_with_scheme sample_urlopen urljoin_concat
    "http://idot/" tt
  = (Ok (to_csv sample_rows), tt).
Proof. vm_compute. reflexivity. Qed.

(** the second detail page comes back and cannot be tokenized: its row is
    an error row, the third page is read all the same *)
Lemma garbled_run :
  Root.process_repository request_with_scheme garbled_urlopen urljoin_concat
    "http://idot/" tt
  = (Ok (to_csv garbled_rows), tt)
  /\ Api.process_repository request_with_scheme garbled_urlopen urljoin_concat
       "http://idot/" tt
     = (Ok (to_csv garbled_rows), tt).
Proof. split; vm_compute; reflexivity. Qed.

Lemma process_repository_one_row_per_url_witness :
  let urls := ["http://idot/LbContractDetail/1";
               "http://idot/LbContractDetail/2";
               "http://idot/LbContractDetail/3"] in
  request_with_scheme "http://idot/" = None
  /\ sample_urlopen "http://idot/" tt = (inr (Tokens sample_listing), tt)
  /\ urls <> []
  /\ Api.parse_repository_page_text urljoin_concat (Tokens sample_listing)
       "http://idot/" = Ok urls
  /\ Api.process_repository request_with_scheme sample_urlopen urljoin_concat
       "http://idot/" tt
     = (Ok (to_csv sample_rows), tt)
  /\ exists csv w',
      Api.process_repository request_with_scheme sample_urlopen urljoin_concat
        "http://idot/" tt = (Ok csv, w')
      /\ one_row_per_url (Api.fetch_url request_with_scheme sample_urlopen)
           urls tt csv w'.
Proof.
  intros urls.
  assert (H1 : request_with_scheme "http://idot/" = None) by reflexivity.
  assert (H2 : sample_urlopen "http://idot/" tt
               = (inr (Tokens sample_listing), tt)) by reflexivity.
  assert (H3 : urls <> []) by done.
  assert (H4 : Api.parse_repository_page_text urljoin_concat
                 (Tokens sample_listing) "http://idot/" = Ok urls)
    by (vm_compute; reflexivity).
  split; [exact H1|]. split; [exact H2|]. split; [exact H3|].
  split; [exact H4|]. split; [exact sample_run|].
  exact (proj1 (proj2 (process_repository_one_row_per_url request_with_scheme
                         sample_urlopen urljoin_concat "http://idot/" tt tt
                         (Tokens sample_listing) urls H1 H2 H3)) H4).
Defined.

(** ** Failing fast at the listing stage *)

(** C6.  [process_repository] gives up at the listing stage only, before
    any detail page is asked for.  When the request for the listing cannot
    be built nothing is sent and the error of [Request] comes out (reworded
    in [src/scrape.py], as it is in [src/api/scrape.py]); when the fetch of
    the listing fails the error names the cause; in both cases there is no
    report and no further fetch.  When the listing resolves to no URL the
    run raises the no-match error, and when the listing stage itself raises,
    that error comes out.  With at least one resolved URL the run always
    returns a report. *)
Theorem process_repository_fails_fast {World : Type}
    (Request : string -> option exn)
    (urlopen : string -> World -> (NetError + Html) * World)
    (urljoin : string -> string -> result string)
    (repo_url : string) (w w1 : World) :
  (forall e, Request repo_url = Some e ->
     Root.process_repository Request urlopen urljoin repo_url w
     = (Raise (Exception ("Failed to fetch repository page: " +:+ str_exn e)), w)
     /\ Api.process_repository Request urlopen urljoin repo_url w
        = (Raise e, w))
  /\ (Request repo_url = None ->
      (forall e, urlopen repo_url w = (inl e, w1) ->
         Root.process_repository Request urlopen urljoin repo_url w
         = (Raise (Exception ("Failed to fetch repository page: "
                              +:+ Root.describe e)), w1)
         /\ Api.process_repository Request urlopen urljoin repo_url w
            = (Raise (Exception ("Failed to fetch " +:+ repo_url +:+ ": "
                                 +:+ str_net e)), w1))
      /\ (forall html_content, urlopen repo_url w = (inr html_content, w1) ->
            (Root.parse_repository_page_text urljoin html_content repo_url
             = Ok [] ->
             Root.process_repository Request urlopen urljoin repo_url w
             = (Raise (Exception Root.no_match), w1))
            /\ (Api.parse_repository_page_text urljoin html_content repo_url
                = Ok [] ->
                Api.process_repository Request urlopen urljoin repo_url w
                = (Raise (Exception Api.no_match), w1))
            /\ (forall e,
                  Root.parse_repository_page_text urljoin html_content repo_url
                  = Raise e ->
                  Root.process_repository Request urlopen urljoin repo_url w
                  = (Raise e, w1))
            /\ (forall e,
                  Api.parse_repository_page_text urljoin html_content repo_url
                  = Raise e ->
                  Api.process_repository Request urlopen urljoin repo_url w
                  = (Raise e, w1))
            /\ (forall urls, urls <> [] ->
                  Root.parse_repository_page_text urljoin html_content repo_url
                  = Ok urls ->
                  exists csv w',
                    Root.process_repository Request urlopen urljoin repo_url w
                    = (Ok csv, w'))
            /\ (forall urls, urls <> [] ->
                  Api.parse_repository_page_text urljoin html_content repo_url
                  = Ok urls ->
                  exists csv w',
                    Api.process_repository Request urlopen urljoin repo_url w
                    = (Ok csv, w'))))
  /\ String.prefix "No matching contracts found" Root.no_match = true
  /\ String.prefix "No matching contracts found" Api.no_match = true.
Proof.
  split; [|split; [|by split]].
  - intros e HR. unfold Root.process_repository, Api.process_repository,
      Root.fetch_url, Api.fetch_url. by rewrite HR.
  - intros HR. split.
    + intros e E. unfold Root.process_repository, Api.process_repository,
        Root.fetch_url, Api.fetch_url. by rewrite HR, E.
    + intros html_content E.
      unfold Root.process_repository, Api.process_repository,
        Root.fetch_url, Api.fetch_url. rewrite HR, E.
      split; [|split; [|split; [|split; [|split]]]].
      * by intros ->.
      * by intros ->.
      * by intros e ->.
      * by intros e ->.
      * intros urls Hne ->. apply nonempty_true in Hne. rewrite Hne.
        destruct (scrape_contracts _ urls [] w1) as [rows w2]. by eexists _, _.
      * intros urls Hne ->. apply nonempty_true in Hne. rewrite Hne.
        destruct (scrape_contracts _ urls [] w1) as [rows w2]. by eexists _, _.
Qed.

Lemma process_repository_fails_fast_witness :
  request_with_scheme "http://idot/" = None
  /\ down_urlopen "http://idot/" tt = (inl (URLError "timed out"), tt)
  /\ Root.process_repository request_with_scheme down_urlopen urljoin_concat
       "http://idot/" tt
     = (Raise (Exception "Failed to fetch repository page: URL Error: timed out"),
        tt)
  /\ Api.process_repository request_with_scheme down_urlopen urljoin_concat
       "http://idot/" tt
     = (Raise (Exception "Failed to fetch http://idot/: <urlopen error timed out>"),
        tt)
  /\ request_with_scheme "idot" = Some (ValueError "unknown url type: 'idot'")
  /\ Root.process_repository request_with_scheme down_urlopen urljoin_concat
       "idot" tt
     = (Raise (Exception
                 "Failed to fetch repository page: unknown url type: 'idot'"),
        tt)
  /\ Api.process_repository request_with_scheme down_urlopen urljoin_concat
       "idot" tt
     = (Raise (ValueError "unknown url type: 'idot'"), tt).
Proof.
  assert (H1 : request_with_scheme "http://idot/" = None) by reflexivity.
  assert (H2 : down_urlopen "http://idot/" tt = (inl (URLError "timed out"), tt))
    by reflexivity.
  assert (H3 : request_with_scheme "idot"
               = Some (ValueError "unknown url type: 'idot'")) by reflexivity.
  split; [exact H1|]. split; [exact H2|].
  destruct (proj1 (proj1 (proj2 (process_repository_fails_fast
                                   request_with_scheme down_urlopen
                                   urljoin_concat "http://idot/" tt tt)) H1)
              (URLError "timed out") H2) as [Hr Ha].
  split; [exact Hr|]. split; [exact Ha|]. split; [exact H3|].
  exact (proj1 (process_repository_fails_fast request_with_scheme down_urlopen
                  urljoin_concat "idot" tt tt)
           (ValueError "unknown url type: 'idot'") H3).
Defined.


(** ** The fields of a detail page *)

Section DetailInvariant.
(** the cells the page offers *)
Variable P : string -> Prop.







End DetailInvariant.







(** ** The next-row rule *)

Lemma truthy_true s : Py.truthy s = true <-> s <> EmptyString.
Proof. destruct s; cbn; split; congruence. Qed.

Lemma truthy_false s : Py.truthy s = false <-> s = EmptyString.
Proof. destruct s; cbn; split; congruence. Qed.

Lemma prefix_dollar c s :
  String.prefix dollar (String c s) = true -> Py.is_space c = false.
Proof.
  unfold dollar. cbn [String.prefix].
  destruct (ascii_dec "$" c) as [<-|]; [reflexivity | discriminate].
Qed.

Lemma contains_dollar_lstrip s :
  Py.contains dollar s = true -> Py.contains dollar (Py.lstrip s) = true.
Proof.
  induction s as [|c s IH]; [done|]. intros H.
  cbn [Py.lstrip]. destruct (Py.is_space c) eqn:E; [|done].
  cbn [Py.contains] in H. apply orb_true_iff in H as [H|H]; [|by apply IH].
  apply prefix_dollar in H. congruence.
Qed.

Lemma contains_dollar_rstrip s :
  Py.contains dollar s = true -> Py.rstrip s <> EmptyString.
Proof.
  induction s as [|c s IH]; [done|]. intros H.
  cbn [Py.rstrip]. destruct (Py.rstrip s) eqn:E; [|done].
  cbn [Py.contains] in H. apply orb_true_iff in H as [H|H].
  - apply prefix_dollar in H. by rewrite H.
  - by apply IH in H.
Qed.

Lemma strip_dollar cell :
  Py.contains dollar cell = true -> Py.strip cell <> EmptyString.
Proof.
  intros H. unfold Py.strip. by apply contains_dollar_rstrip, contains_dollar_lstrip.
Qed.

Lemma next_row_awardee row : forall st,
  Detail.awardee (fold_left next_row_cell row st) = Detail.awardee st.
Proof.
  induction row as [|cell row IH]; intros st; cbn [fold_left]; [done|].
  rewrite IH. unfold next_row_cell.
  destruct (_ && _); [done|]. by destruct (_ && _).
Qed.

Lemma next_row_keeps_amount row : forall st,
  Detail.low_bid_amount st <> EmptyString ->
  Detail.low_bid_amount (fold_left next_row_cell row st) = Detail.low_bid_amount st.
Proof.
  induction row as [|cell row IH]; intros st H; cbn [fold_left]; [done|].
  apply truthy_true in H as T.
  assert (E : Detail.low_bid_amount (next_row_cell st cell) = Detail.low_bid_amount st).
  { unfold next_row_cell. rewrite T, andb_false_r. by destruct (_ && _). }
  rewrite IH; [done | by rewrite E].
Qed.

Lemma next_row_keeps_bidder row : forall st,
  Detail.low_bidder st <> EmptyString ->
  Detail.low_bidder (fold_left next_row_cell row st) = Detail.low_bidder st.
Proof.
  induction row as [|cell row IH]; intros st H; cbn [fold_left]; [done|].
  apply truthy_true in H as T.
  assert (E : Detail.low_bidder (next_row_cell st cell) = Detail.low_bidder st).
  { unfold next_row_cell. rewrite T, andb_false_r. by destruct (_ && _). }
  rewrite IH; [done | by rewrite E].
Qed.

Lemma next_row_first_amount row : forall st,
  Detail.low_bid_amount st = EmptyString ->
  Detail.low_bid_amount (fold_left next_row_cell row st)
  = match List.find (Py.contains dollar) row with
    | Some cell => Py.strip cell
    | None => EmptyString
    end.
Proof.
  induction row as [|cell row IH]; intros st H; cbn [fold_left List.find]; [done|].
  destruct (Py.contains dollar cell) eqn:E.
  - assert (E1 : next_row_cell st cell
                 = Detail.mk (Detail.low_bidder st) (Py.strip cell) (Detail.awardee st)).
    { unfold next_row_cell. by rewrite E, H. }
    rewrite E1, next_row_keeps_amount; [done|]. by apply strip_dollar.
  - rewrite IH; [done|]. unfold next_row_cell. rewrite E. cbn.
    by destruct (_ && _).
Qed.

(** the bidder an empty [low_bidder] gets from the next row *)
Lemma next_row_first_bidder row : forall st,
  Detail.low_bidder st = EmptyString ->
  Detail.low_bidder (fold_left next_row_cell row st)
  = match List.find (fun cell => (10 <? String.length cell)
                                 && Py.truthy (Py.strip cell))
                    (bidder_candidates (Py.truthy (Detail.low_bid_amount st)) row)
    with
    | Some cell => Py.strip cell
    | None => EmptyString
    end.
Proof.
  induction row as [|cell row IH]; intros st H;
    cbn [fold_left bidder_candidates]; [done|].
  destruct (Py.contains dollar cell
            && negb (Py.truthy (Detail.low_bid_amount st))) eqn:E.
  - assert (E1 : next_row_cell st cell
                 = Detail.mk (Detail.low_bidder st) (Py.strip cell)
                     (Detail.awardee st))
      by (unfold next_row_cell; by rewrite E).
    apply andb_true_iff in E as [Ed _].
    apply strip_dollar, truthy_true in Ed.
    rewrite E1, IH by done. cbn [Detail.low_bid_amount]. by rewrite Ed.
  - assert (E1 : next_row_cell st cell
                 = if 10 <? String.length cell
                   then Detail.mk (Py.strip cell) (Detail.low_bid_amount st)
                          (Detail.awardee st)
                   else st).
    { unfold next_row_cell. rewrite E, H. cbn [Py.truthy negb].
      by rewrite andb_true_r. }
    rewrite E1. cbn [List.find].
    destruct (10 <? String.length cell); cbn [andb].
    + destruct (Py.truthy (Py.strip cell)) eqn:T.
      * rewrite next_row_keeps_bidder; cbn; [done|]. by apply truthy_true.
      * rewrite IH; cbn; [done|]. by apply truthy_false.
    + by rewrite IH.
Qed.

(** X18.  The scan of the row below a low-bid row never replaces a field
    that is already set.  An empty amount is filled by the first cell with
    a dollar sign.  An empty bidder is filled by the first cell longer than
    ten characters whose stripped text is not empty, among all the cells of
    the row but the one that fills the amount: there is no test for numeric
    content, and a dollar cell met once the amount is set is a candidate. *)
Theorem next_row_fills_only_empty_fields
    (tbl : Table) (i : nat) (row next_row : Row) (st : Detail.t) :
  is_low_bid_row row = true ->
  tbl !! (i + 1) = Some next_row ->
  let found := fold_left same_row_cell row st in
  let st' := fold_left next_row_cell next_row found in
  scan_row tbl i row st
    = (if is_award_row row then fold_left awardee_cell row st' else st')
  /\ (Detail.low_bid_amount found <> EmptyString ->
      Detail.low_bid_amount st' = Detail.low_bid_amount found)
  /\ (Detail.low_bidder found <> EmptyString ->
      Detail.low_bidder st' = Detail.low_bidder found)
  /\ (Detail.low_bid_amount found = EmptyString ->
      Detail.low_bid_amount st'
      = match List.find (Py.contains dollar) next_row with
        | Some cell => Py.strip cell
        | None => EmptyString
        end)
  /\ (Detail.low_bidder found = EmptyString ->
      Detail.low_bidder st'
      = match List.find (fun cell => (10 <? String.length cell)
                                     && Py.truthy (Py.strip cell))
                        (bidder_candidates
                           (Py.truthy (Detail.low_bid_amount found)) next_row)
        with
        | Some cell => Py.strip cell
        | None => EmptyString
        end).
Proof.
  intros Hlow Hnext found st'.
  split; [|split; [|split; [|split]]].
  - unfold scan_row. rewrite Hlow, Hnext.
    apply lookup_lt_Some in Hnext. apply Nat.ltb_lt in Hnext. by rewrite Hnext.
  - apply next_row_keeps_amount.
  - apply next_row_keeps_bidder.
  - apply next_row_first_amount.
  - apply next_row_first_bidder.
Qed.

Lemma next_row_fills_only_empty_fields_witness :
  let tbl := [["Low Bid"; "$5"]; ["$7"; "$99,999,999.00"; "12345678901"]] in
  is_low_bid_row ["Low Bid"; "$5"] = true
  /\ tbl !! (0 + 1) = Some ["$7"; "$99,999,999.00"; "12345678901"]
  /\ scan_row tbl 0 ["Low Bid"; "$5"]
       (Detail.mk EmptyString EmptyString EmptyString)
     = Detail.mk "$99,999,999.00" "$5" EmptyString.
Proof.
  intros tbl.
  assert (H1 : is_low_bid_row ["Low Bid"; "$5"] = true) by reflexivity.
  assert (H2 : tbl !! (0 + 1) = Some ["$7"; "$99,999,999.00"; "12345678901"])
    by reflexivity.
  split; [exact H1|]. split; [exact H2|].
  destruct (next_row_fills_only_empty_fields tbl 0 _ _
              (Detail.mk EmptyString EmptyString EmptyString) H1 H2)
    as (H & _).
  rewrite H. reflexivity.
Defined.

(** C4 at a failing input.  The bidder test of the next row is not the one
    of the matching row: it asks for more than ten characters and nothing
    else.  Below a low-bid row that holds the amount only, a cell of eleven
    digits becomes the low bidder, and so does a second amount.  Neither is
    a bidder candidate for the tests of the matching row, which the awardee
    loop shares and which the rule of the claim applies to the next row as
    well. *)
Theorem next_row_takes_numeric_cell :
  let page := table [tr [td "Low Bid"; td "$5"]; tr [td "12345678901"]] in
  let page' := table [tr [td "Low Bid"; td "$5"]; tr [td "$99,999,999.00"]] in
  let found := Detail.mk EmptyString "$5" EmptyString in
  tables_of (feed page) = [[["Low Bid"; "$5"]; ["12345678901"]]]
  /\ fold_left same_row_cell ["Low Bid"; "$5"]
       (Detail.mk EmptyString EmptyString EmptyString) = found
  /\ name_like "12345678901" = false
  /\ fold_left next_row_cell_spec ["12345678901"] found = found
  /\ fold_left next_row_cell ["12345678901"] found
     = Detail.mk "12345678901" "$5" EmptyString
  /\ scrape_contract_detail page = Detail.mk "12345678901" "$5" "Not Found"
  /\ tables_of (feed page') = [[["Low Bid"; "$5"]; ["$99,999,999.00"]]]
  /\ fold_left next_row_cell_spec ["$99,999,999.00"] found = found
  /\ fold_left next_row_cell ["$99,999,999.00"] found
     = Detail.mk "$99,999,999.00" "$5" EmptyString
  /\ scrape_contract_detail page' = Detail.mk "$99,999,999.00" "$5" "Not Found".
Proof. cbn zeta. repeat split; vm_compute; reflexivity. Qed.

(** ** A low-bid row and what follows it *)


Lemma awardee_cells_same_bid row : forall st,
  same_bid (fold_left awardee_cell row st) st.
Proof.
  unfold same_bid.
  induction row as [|cell row IH]; intros st; cbn [fold_left]; [done|].
  destruct (IH (awardee_cell st cell)) as [-> ->].
  unfold awardee_cell. by destruct (name_like cell).
Qed.

Lemma scan_row_other tbl i row st :
  is_low_bid_row row = false -> same_bid (scan_row tbl i row st) st.
Proof.
  intros H. unfold scan_row. rewrite H.
  destruct (is_award_row row); [apply awardee_cells_same_bid | done].
Qed.

Lemma scan_rows_from_other tbl rows : forall i st,
  Forall (fun row => is_low_bid_row row = false) rows ->
  same_bid (scan_rows_from tbl i rows st) st.
Proof.
  induction rows as [|row rows IH]; intros i st H; cbn [scan_rows_from]; [done|].
  inversion H; subst.
  destruct (IH (S i) (scan_row tbl i row st)) as [E1 E2]; [done|].
  destruct (scan_row_other tbl i row st) as [E3 E4]; [done|].
  split; congruence.
Qed.

Lemma scan_rows_from_app tbl rows1 rows2 : forall i st,
  scan_rows_from tbl i (rows1 ++ rows2) st
  = scan_rows_from tbl (i + length rows1) rows2 (scan_rows_from tbl i rows1 st).
Proof.
  induction rows1 as [|row rows1 IH]; intros i st; cbn [scan_rows_from app length].
  - by rewrite Nat.add_0_r.
  - rewrite IH. f_equal. lia.
Qed.

Lemma scan_tables_other tbls : forall st,
  Forall (fun row => is_low_bid_row row = false) (concat tbls) ->
  same_bid (fold_left scan_table tbls st) st.
Proof.
  induction tbls as [|tbl tbls IH]; intros st H; cbn [fold_left]; [done|].
  cbn [concat] in H. apply Forall_app in H as [H1 H2].
  destruct (IH (scan_table st tbl) H2) as [E1 E2].
  destruct (scan_rows_from_other tbl tbl 0 st H1) as [E3 E4].
  unfold scan_table in *. split; congruence.
Qed.

Lemma scan_row_acme tbl i st :
  Detail.low_bidder (scan_row tbl i acme_row st) = "Acme Construction Co"
  /\ Detail.low_bid_amount (scan_row tbl i acme_row st) = "$1,234,567.89".
Proof.
  unfold scan_row.
  change (is_low_bid_row acme_row) with true.
  change (is_award_row acme_row) with false.
  change (fold_left same_row_cell acme_row st)
    with (Detail.mk "Acme Construction Co" "$1,234,567.89" (Detail.awardee st)).
  cbn iota zeta.
  destruct (i + 1 <? length tbl); [|done].
  destruct (tbl !! (i + 1)) as [next_row|]; [|done].
  by rewrite next_row_keeps_amount, next_row_keeps_bidder.
Qed.

(** C5, as the code has it.  A page among whose extracted tables is one
    with the row Low Bid / Acme Construction Co / $1,234,567.89 yields that
    bidder and that amount, whatever precedes the row, when no later row
    (of that table or of a later one) matches the low-bid pattern. *)
Theorem acme_row_extracted (html : Markup)
    (before after : list Table) (above below : list Row) :
  tables_of (feed html) = before ++ [above ++ [acme_row] ++ below] ++ after ->
  Forall (fun row => is_low_bid_row row = false) (below ++ concat after) ->
  let data := scrape_contract_detail html in
  Detail.low_bidder data = "Acme Construction Co"
  /\ Detail.low_bid_amount data = "$1,234,567.89".
Proof.
  intros Ht Hrest. apply Forall_app in Hrest as [Hbelow Hafter].
  cbn zeta. unfold scrape_contract_detail, detail_of_tables. rewrite Ht.
  rewrite !fold_left_app. cbn [fold_left].
  set (st0 := fold_left scan_table before _).
  set (tbl := above ++ [acme_row] ++ below).
  destruct (scan_tables_other after (scan_table st0 tbl) Hafter) as [Eb Ea].
  cbn [Detail.low_bidder Detail.low_bid_amount]. rewrite Eb, Ea.
  unfold scan_table. unfold tbl at 2 4.
  rewrite scan_rows_from_app. cbn [app scan_rows_from].
  set (st1 := scan_rows_from tbl 0 above st0).
  destruct (scan_rows_from_other tbl below (S (0 + length above))
              (scan_row tbl (0 + length above) acme_row st1) Hbelow) as [-> ->].
  destruct (scan_row_acme tbl (0 + length above) st1) as [-> ->]. done.
Qed.

Lemma acme_row_extracted_witness :
  tables_of (feed sample_detail) = [] ++ [[] ++ [acme_row] ++ []] ++ []
  /\ Detail.low_bidder (scrape_contract_detail sample_detail) = "Acme Construction Co"
  /\ Detail.low_bid_amount (scrape_contract_detail sample_detail) = "$1,234,567.89".
Proof.
  assert (H : tables_of (feed sample_detail) = [] ++ [[] ++ [acme_row] ++ []] ++ [])
    by reflexivity.
  split; [exact H|].
  exact (acme_row_extracted sample_detail [] [] [] [] H (Forall_nil_2 _)).
Defined.

(** C5 as stated fails: below the Acme row stands a second row matching the
    low-bid pattern, and that row takes both fields over. *)
Lemma later_low_bid_row_takes_over :
  tables_of (feed two_bids_detail)
  = [[acme_row; ["Second Low Bid"; "Bolt Paving Company"; "$2,000,000.00"]]]
  /\ acme_row ∈ concat (tables_of (feed two_bids_detail))
  /\ scrape_contract_detail two_bids_detail
     = Detail.mk "Bolt Paving Company" "$2,000,000.00" "Not Found"
  /\ Detail.low_bidder (scrape_contract_detail two_bids_detail)
     <> "Acme Construction Co"
  /\ Detail.low_bid_amount (scrape_contract_detail two_bids_detail)
     <> "$1,234,567.89".
Proof.
  assert (Et : tables_of (feed two_bids_detail)
               = [[acme_row;
                   ["Second Low Bid"; "Bolt Paving Company"; "$2,000,000.00"]]])
    by (vm_compute; reflexivity).
  assert (Ed : scrape_contract_detail two_bids_detail
               = Detail.mk "Bolt Paving Company" "$2,000,000.00" "Not Found")
    by (vm_compute; reflexivity).
  split; [exact Et|]. split; [rewrite Et; apply list_elem_of_here|].
  split; [exact Ed|]. rewrite Ed. cbn [Detail.low_bidder Detail.low_bid_amount].
  split; discriminate.
Qed.

(** ** The count in the success message *)


Lemma count_app c a b : Py.count c (a +:+ b) = Py.count c a + Py.count c b.
Proof.
  induction a as [|x a IH]; [done|].
  rewrite append_cons. cbn [Py.count]. rewrite IH. lia.
Qed.

Lemma count_double_quotes f :
  Py.count Csv.LF (Csv.double_quotes f) = Py.count Csv.LF f.
Proof.
  induction f as [|c f IH]; [done|]. cbn [Csv.double_quotes].
  destruct (Ascii.eqb c Csv.quote) eqn:E.
  - apply Ascii.eqb_eq in E. subst c. cbn [Py.count]. rewrite IH.
    by change (Ascii.eqb Csv.LF Csv.quote) with false.
  - cbn [Py.count]. by rewrite IH.
Qed.

Lemma count_write_field f :
  Py.count Csv.LF (Csv.write_field f) = Py.count Csv.LF f.
Proof.
  unfold Csv.write_field. destruct (Csv.needs_quotes f); [|done].
  cbn [Py.count]. change (Ascii.eqb Csv.LF Csv.quote) with false.
  rewrite count_app, count_double_quotes.
  change (Py.count Csv.LF (String Csv.quote EmptyString)) with 0. lia.
Qed.

Lemma count_writerow r :
  Py.count Csv.LF (Csv.writerow (dict_to_list r)) = 1 + newlines_in r.
Proof.
  unfold dict_to_list, newlines_in. rewrite ReaderFacts.writerow_four.
  repeat (rewrite count_app, count_write_field; cbn [Py.count];
          change (Ascii.eqb Csv.LF Csv.comma) with false).
  change (Py.count Csv.LF Csv.lineterminator) with 1. lia.
Qed.

Lemma count_writerows results :
  Py.count Csv.LF (Csv.writerows (map dict_to_list results))
  = length results + sum_list (map newlines_in results).
Proof.
  induction results as [|r results IH]; [done|].
  cbn [map]. rewrite ReaderFacts.writerows_cons, count_app, count_writerow, IH.
  cbn. lia.
Qed.

(** X11.  The message counts the line feeds of the text: one per record,
    and one more for every line feed inside a field. *)
Lemma scraped_count_to_csv results :
  scraped_count (to_csv results)
  = (Z.of_nat (length results) + Z.of_nat (sum_list (map newlines_in results)))%Z.
Proof.
  unfold scraped_count, to_csv.
  rewrite count_app, count_writerows.
  change (Py.count Csv.LF (Csv.writerow fieldnames)) with 1. lia.
Qed.


(** C7 at a failing input.  One contract whose bidder cell holds a line
    feed: the report has one data row, read back as one record, and the
    message of both variants announces two contracts. *)
Theorem message_counts_line_feeds :
  Api.handler request_with_scheme two_line_urlopen urljoin_concat
    "http://idot/" tt
  = (Success (to_csv [two_line_row]) "Successfully scraped 2 contracts", tt)
  /\ Root.handler request_with_scheme two_line_urlopen urljoin_concat
       "http://idot/" tt
     = (Success (to_csv [two_line_row]) "Successfully scraped 2 contracts", tt)
  /\ CsvReader.read_report (to_csv [two_line_row]) = Some [two_line_row]
  /\ scraped_count (to_csv [two_line_row]) = 2%Z
  /\ length [two_line_row] = 1.
Proof.
  split; [vm_compute; reflexivity|]. split; [vm_compute; reflexivity|].
  split; [vm_compute; reflexivity|]. split; reflexivity.
Qed.

(** * Further properties of the code *)

(** ** Stripped cells *)

Lemma lstrip_head s :
  Py.lstrip s = EmptyString
  \/ exists c r, Py.lstrip s = String c r /\ Py.is_space c = false.
Proof.
  induction s as [|c s IH]; [by left|]. cbn [Py.lstrip].
  destruct (Py.is_space c) eqn:E; [done|]. right. by exists c, s.
Qed.

Lemma lstrip_nonspace c r :
  Py.is_space c = false -> Py.lstrip (String c r) = String c r.
Proof. intros E. cbn [Py.lstrip]. by rewrite E. Qed.

Lemma rstrip_nonspace c r :
  Py.is_space c = false -> exists r', Py.rstrip (String c r) = String c r'.
Proof.
  intros E. cbn [Py.rstrip]. destruct (Py.rstrip r) as [|d r'].
  - rewrite E. by eexists.
  - by eexists.
Qed.

Lemma rstrip_idem s : Py.rstrip (Py.rstrip s) = Py.rstrip s.
Proof.
  induction s as [|c s IH]; [done|]. cbn [Py.rstrip].
  destruct (Py.rstrip s) as [|d r] eqn:E.
  - destruct (Py.is_space c) eqn:Ec; [done|]. cbn [Py.rstrip]. by rewrite Ec.
  - cbn [Py.rstrip]. cbn [Py.rstrip] in IH. by rewrite IH.
Qed.

Lemma strip_idem s : Py.strip (Py.strip s) = Py.strip s.
Proof.
  unfold Py.strip. destruct (lstrip_head s) as [->|(c & r & -> & E)]; [done|].
  destruct (rstrip_nonspace c r E) as (r' & Hr).
  rewrite Hr, lstrip_nonspace by done. rewrite <- Hr. apply rstrip_idem.
Qed.

Lemma cells_stripped_handle p tok :
  cells_stripped p -> cells_stripped (handle p tok).
Proof.
  unfold cells_stripped. intros H. destruct tok as [tag attrs|tag|data]; cbn.
  - unfold handle_starttag.
    destruct (String.eqb tag "table"); [done|].
    destruct (String.eqb tag "tr" && in_table p).
    { cbn. apply Forall_app. split; [done | by repeat constructor]. }
    destruct (is_cell_tag tag && in_row p); [done|].
    by destruct (String.eqb tag "a" && in_cell p).
  - unfold handle_endtag.
    destruct (String.eqb tag "table"); [done|].
    destruct (String.eqb tag "tr" && in_row p); [done|].
    destruct (is_cell_tag tag && in_cell p); [|done]. cbn.
    apply Forall_alter; [done|]. intros row _ Hrow.
    apply Forall_app. split; [done|]. repeat constructor. apply strip_idem.
  - unfold handle_data. by destruct (in_cell p).
Qed.

Lemma cells_stripped_feed_from html :
  forall p, cells_stripped p -> cells_stripped (feed_from p html).
Proof.
  unfold feed_from. induction html as [|tok html IH]; cbn; [done|].
  intros p H. by apply IH, cells_stripped_handle.
Qed.

(** X1.  Every cell of every table the extractor returns is already
    stripped: stripping it again changes nothing.  This holds for every
    document, well nested or not. *)
Theorem extracted_cells_are_stripped (html : Markup) :
  Forall (Forall (Forall (fun cell => Py.strip cell = cell)))
         (tables_of (feed html)).
Proof.
  assert (H : cells_stripped (feed html)).
  { apply cells_stripped_feed_from. repeat constructor. }
  unfold cells_stripped in H. rewrite Forall_lookup in H.
  unfold tables_of. apply Forall_map, Forall_forall. intros t _.
  unfold table_value. apply Forall_map, Forall_forall. intros r _.
  unfold row_at. rewrite list_lookup_total_alt.
  destruct (row_store (feed html) !! r) as [row|] eqn:E; cbn.
  - by apply (H r).
  - constructor.
Qed.

(** ** The fields of a detail page: which rows decide them *)

Lemma same_row_awardee row : forall st,
  Detail.awardee (fold_left same_row_cell row st) = Detail.awardee st.
Proof.
  induction row as [|cell row IH]; intros st; cbn [fold_left]; [done|].
  rewrite IH. unfold same_row_cell.
  destruct (Py.contains dollar cell); [done|]. by destruct (name_like cell).
Qed.

Lemma scan_row_no_award tbl i row st :
  is_award_row row = false ->
  Detail.awardee (scan_row tbl i row st) = Detail.awardee st.
Proof.
  intros H. unfold scan_row. rewrite H.
  destruct (is_low_bid_row row); [|done]. cbn zeta.
  destruct (i + 1 <? length tbl); [|apply same_row_awardee].
  destruct (tbl !! (i + 1)); [|apply same_row_awardee].
  by rewrite next_row_awardee, same_row_awardee.
Qed.

Lemma scan_rows_from_no_award tbl rows : forall i st,
  Forall (fun row => is_award_row row = false) rows ->
  Detail.awardee (scan_rows_from tbl i rows st) = Detail.awardee st.
Proof.
  induction rows as [|row rows IH]; intros i st H; cbn [scan_rows_from]; [done|].
  inversion H; subst. rewrite IH by done. by apply scan_row_no_award.
Qed.

Lemma scan_tables_no_award tbls : forall st,
  Forall (fun row => is_award_row row = false) (concat tbls) ->
  Detail.awardee (fold_left scan_table tbls st) = Detail.awardee st.
Proof.
  induction tbls as [|tbl tbls IH]; intros st H; cbn [fold_left]; [done|].
  cbn [concat] in H. apply Forall_app in H as [H1 H2].
  rewrite IH by done. by apply scan_rows_from_no_award.
Qed.

(** X2.  The rows decide the fields by kind.  On a page without a row
    matching the low-bid pattern, [low_bidder] and [low_bid_amount] are the
    sentinel, whatever the award rows hold; on a page without an award row,
    [awardee] is the sentinel, whatever the low-bid rows hold. *)
Theorem unmatched_fields_not_found (html : Markup) :
  let tbls := tables_of (feed html) in
  let data := scrape_contract_detail html in
  (Forall (fun row => is_low_bid_row row = false) (concat tbls) ->
   Detail.low_bidder data = not_found /\ Detail.low_bid_amount data = not_found)
  /\ (Forall (fun row => is_award_row row = false) (concat tbls) ->
      Detail.awardee data = not_found).
Proof.
  cbn zeta. unfold scrape_contract_detail, detail_of_tables. split.
  - intros H. cbn [Detail.low_bidder Detail.low_bid_amount].
    destruct (scan_tables_other (tables_of (feed html))
                (Detail.mk EmptyString EmptyString EmptyString) H) as [-> ->].
    done.
  - intros H. cbn [Detail.awardee]. by rewrite scan_tables_no_award.
Qed.

Lemma unmatched_fields_not_found_witness :
  let page := table [tr [td "Contract"; td "61A12"; td "Cook"]] in
  Forall (fun row => is_low_bid_row row = false) (concat (tables_of (feed page)))
  /\ Forall (fun row => is_award_row row = false) (concat (tables_of (feed page)))
  /\ scrape_contract_detail page = Detail.mk not_found not_found not_found.
Proof.
  intros page.
  assert (H1 : Forall (fun row => is_low_bid_row row = false)
                 (concat (tables_of (feed page)))) by (by repeat constructor).
  assert (H2 : Forall (fun row => is_award_row row = false)
                 (concat (tables_of (feed page)))) by (by repeat constructor).
  split; [exact H1|]. split; [exact H2|].
  destruct (unmatched_fields_not_found page) as [Hb Ha].
  destruct (Hb H1) as [E1 E2]. specialize (Ha H2).
  destruct (scrape_contract_detail page) as [b a w]. cbn in *. by subst.
Defined.

(** ** The matching row: the last candidate wins *)

Lemma fold_left_snoc {A B} (f : A -> B -> A) (l : list B) (x : B) (a : A) :
  fold_left f (l ++ [x]) a = f (fold_left f l a) x.
Proof. by rewrite fold_left_app. Qed.

(** X3.  In a row matching the low-bid pattern the last candidate wins:
    the amount is the last cell with a dollar sign, the bidder the last
    name-like cell without one (a dollar cell is never a bidder here);
    without a candidate the field keeps what it held.  The awardee is not
    touched. *)
Theorem same_row_last_candidate_wins (row : Row) (st : Detail.t) :
  let st' := fold_left same_row_cell row st in
  Detail.low_bid_amount st'
  = match List.find (Py.contains dollar) (rev row) with
    | Some cell => Py.strip cell
    | None => Detail.low_bid_amount st
    end
  /\ Detail.low_bidder st'
     = match List.find (fun cell => negb (Py.contains dollar cell) && name_like cell)
                       (rev row) with
       | Some cell => Py.strip cell
       | None => Detail.low_bidder st
       end
  /\ Detail.awardee st' = Detail.awardee st.
Proof.
  cbn zeta. induction row as [|cell row IH] using rev_ind; [done|].
  rewrite fold_left_snoc, rev_app_distr. cbn [rev app List.find].
  destruct IH as (Ha & Hb & Hw). unfold same_row_cell.
  destruct (Py.contains dollar cell); cbn [negb andb];
    [|destruct (name_like cell)];
    cbn [Detail.low_bidder Detail.low_bid_amount Detail.awardee];
    by repeat split.
Qed.

Lemma prefix_app_string a b s :
  String.prefix (a +:+ b) s = true -> String.prefix a s = true.
Proof.
  revert s. induction a as [|c a IH]; intros s; [by destruct s|].
  rewrite append_cons. destruct s as [|d s]; cbn [String.prefix]; [done|].
  destruct (ascii_dec c d); [apply IH | done].
Qed.

Lemma contains_app_string a b s :
  Py.contains (a +:+ b) s = true -> Py.contains a s = true.
Proof.
  induction s as [|d s IH]; cbn [Py.contains].
  - apply prefix_app_string.
  - rewrite !orb_true_iff. intros [H|H]; [left | right; by apply IH].
    by apply prefix_app_string in H.
Qed.

Lemma is_award_row_awardee (row : Row) :
  is_award_row row = Py.contains "awardee" (row_text row).
Proof.
  unfold is_award_row.
  destruct (Py.contains "awardee" (row_text row)) eqn:E.
  - change "awardee" with ("award" +:+ "ee") in E.
    apply contains_app_string in E. by rewrite E.
  - apply andb_false_r.
Qed.

(** X4.  The award test asks for award and for awardee in the row text;
    the second word contains the first, so the test is the one for
    awardee alone. *)
Theorem award_row_is_awardee_row (row : Row) :
  is_award_row row = Py.contains "awardee" (row_text row).
Proof. apply is_award_row_awardee. Qed.

Lemma awardee_cells_last row : forall st,
  Detail.awardee (fold_left awardee_cell row st)
  = match List.find name_like (rev row) with
    | Some cell => Py.strip cell
    | None => Detail.awardee st
    end.
Proof.
  induction row as [|cell row IH] using rev_ind; intros st; [done|].
  rewrite fold_left_snoc, rev_app_distr. cbn [rev app List.find].
  unfold awardee_cell. destruct (name_like cell); [done | apply IH].
Qed.

(** X5.  A row that names an awardee and does not match the low-bid
    pattern changes the awardee only: it becomes the last name-like cell of
    the row (longer than ten characters and not purely numeric), if there
    is one. *)
Theorem award_row_last_candidate_wins
    (tbl : Table) (i : nat) (row : Row) (st : Detail.t) :
  is_low_bid_row row = false ->
  Py.contains "awardee" (row_text row) = true ->
  scan_row tbl i row st
  = Detail.mk (Detail.low_bidder st) (Detail.low_bid_amount st)
      match List.find name_like (rev row) with
      | Some cell => Py.strip cell
      | None => Detail.awardee st
      end.
Proof.
  intros Hlow Haw. rewrite <- is_award_row_awardee in Haw.
  unfold scan_row. rewrite Hlow, Haw.
  destruct (awardee_cells_same_bid row st) as [Eb Ea].
  pose proof (awardee_cells_last row st) as Ew.
  destruct (fold_left awardee_cell row st) as [b a w]. cbn in *. by subst.
Qed.

Lemma award_row_last_candidate_wins_witness :
  let row := ["Awardee"; "Acme Construction Co"; "Bolt Paving Inc"] in
  is_low_bid_row row = false
  /\ Py.contains "awardee" (row_text row) = true
  /\ scan_row [row] 0 row (Detail.mk "x" "y" EmptyString)
     = Detail.mk "x" "y" "Bolt Paving Inc".
Proof.
  intros row.
  assert (H1 : is_low_bid_row row = false) by reflexivity.
  assert (H2 : Py.contains "awardee" (row_text row) = true) by reflexivity.
  split; [exact H1|]. split; [exact H2|].
  rewrite (award_row_last_candidate_wins [row] 0 row _ H1 H2). reflexivity.
Defined.

(** ** The listing stage: the two variants side by side *)

Lemma first_none {A} (l : list (option A)) :
  (exists xs, l = map Some xs)
  \/ (exists xs rest, l = map Some xs ++ None :: rest).
Proof.
  induction l as [|[x|] l IH].
  - left. by exists [].
  - destruct IH as [(xs & ->)|(xs & rest & ->)].
    + left. by exists (x :: xs).
    + right. by exists (x :: xs), rest.
  - right. by exists [], l.
Qed.

(** the link loop stops at the first [href] without a value, unless it has
    stopped before *)
Lemma root_link_loop_none urljoin base_url lnks rest acc :
  fold_left (Root.link_step urljoin base_url) (lnks ++ None :: rest) (Ok acc)
  = match fold_left (Root.link_step urljoin base_url) lnks (Ok acc) with
    | Ok _ => Raise none_not_iterable
    | Raise e => Raise e
    end.
Proof.
  rewrite fold_left_app.
  destruct (fold_left (Root.link_step urljoin base_url) lnks (Ok acc))
    as [urls|e]; cbn [fold_left Root.link_step]; apply root_link_loop_raise.
Qed.

Lemma root_link_loop_resolving urljoin base_url targets :
  (forall l, l ∈ targets -> Py.contains marker l = true ->
     exists url, urljoin base_url l = Ok url) ->
  forall acc, exists urls,
    fold_left (Root.link_step urljoin base_url) (map Some targets) (Ok acc)
    = Ok urls.
Proof.
  induction targets as [|l targets IH]; intros H acc; [by exists acc|].
  cbn [map fold_left Root.link_step].
  assert (H' : forall l', l' ∈ targets -> Py.contains marker l' = true ->
                 exists url, urljoin base_url l' = Ok url).
  { intros l' Hin. apply H. by right. }
  destruct (Py.contains marker l) eqn:E; [|by apply IH].
  destruct (H l) as (url & ->); [by left | done |]. by apply IH.
Qed.

(** X6.  What [src/api/scrape.py] resolves is what [src/scrape.py]
    resolves, de-duplicated in first-seen order and cut to the number of
    matching rows; when one variant raises, the other raises the same
    error. *)
Theorem api_result_from_root_result
    (urljoin : string -> string -> result string) (html : Markup)
    (base_url : string) :
  Api.parse_repository_page urljoin html base_url
  = match Root.parse_repository_page urljoin html base_url with
    | Ok urls => Ok (take (matching_rows html) (first_seen urls))
    | Raise e => Raise e
    end.
Proof. apply api_parse_follows_root. Qed.

Lemma root_parse_repository_page_all_links_witness :
  links (feed duplicate_listing)
    = map Some ["LbContractDetail/1"; "LbContractDetail/1"]
  /\ resolves urljoin_concat "http://idot/"
       ["LbContractDetail/1"; "LbContractDetail/1"]
       ["http://idot/LbContractDetail/1"; "http://idot/LbContractDetail/1"]
  /\ Root.parse_repository_page urljoin_concat duplicate_listing "http://idot/"
     = Ok ["http://idot/LbContractDetail/1"; "http://idot/LbContractDetail/1"].
Proof.
  assert (H : links (feed duplicate_listing)
              = map Some ["LbContractDetail/1"; "LbContractDetail/1"])
    by reflexivity.
  assert (Hr : resolves urljoin_concat "http://idot/"
                 ["LbContractDetail/1"; "LbContractDetail/1"]
                 ["http://idot/LbContractDetail/1";
                  "http://idot/LbContractDetail/1"])
    by (by repeat constructor).
  split; [exact H|]. split; [exact Hr|].
  exact (root_parse_repository_page_all_links urljoin_concat
           duplicate_listing "http://idot/" _ _ H Hr).
Defined.

(** X8.  A link in a cell whose [href] has no value makes the listing
    stage raise in both variants, and both raise the same error, whether
    the link carries the marker or not.  The error is the [TypeError] of
    the membership test on [None] when [urljoin] resolves the marker links
    of the page (a marker link it cannot resolve, met first, raises its own
    error first).  [process_repository] lets the error through, so the run
    ends after the one fetch of the listing. *)
Theorem valueless_href_aborts {World : Type}
    (Request : string -> option exn)
    (urlopen : string -> World -> (NetError + Html) * World)
    (urljoin : string -> string -> result string)
    (repo_url : string) (w w1 : World) (html : Markup) :
  None ∈ links (feed html) ->
  exists e,
    Root.parse_repository_page urljoin html repo_url = Raise e
    /\ Api.parse_repository_page urljoin html repo_url = Raise e
    /\ ((forall l, Some l ∈ links (feed html) ->
           Py.contains marker l = true ->
           exists url, urljoin repo_url l = Ok url) ->
        e = none_not_iterable)
    /\ (Request repo_url = None ->
        urlopen repo_url w = (inr (Tokens html), w1) ->
        Root.process_repository Request urlopen urljoin repo_url w
          = (Raise e, w1)
        /\ Api.process_repository Request urlopen urljoin repo_url w
           = (Raise e, w1)).
Proof.
  intros Hin.
  destruct (first_none (links (feed html))) as [(xs & E)|(xs & rest & E)].
  { exfalso. rewrite E in Hin. apply list_elem_of_fmap in Hin.
    by destruct Hin as (? & ? & _). }
  assert (Hroot : Root.parse_repository_page urljoin html repo_url
                  = match fold_left (Root.link_step urljoin repo_url)
                            (map Some xs) (Ok []) with
                    | Ok _ => Raise none_not_iterable
                    | Raise e => Raise e
                    end).
  { unfold Root.parse_repository_page. cbn zeta.
    by rewrite E, root_link_loop_none. }
  assert (Hres : (forall l, Some l ∈ links (feed html) ->
                    Py.contains marker l = true ->
                    exists url, urljoin repo_url l = Ok url) ->
                 exists urls,
                   fold_left (Root.link_step urljoin repo_url)
                     (map Some xs) (Ok []) = Ok urls).
  { intros H. apply root_link_loop_resolving. intros l Hl. apply H.
    rewrite E. apply elem_of_app. left. by apply list_elem_of_fmap_2. }
  assert (Hex : exists e,
            Root.parse_repository_page urljoin html repo_url = Raise e
            /\ ((forall l, Some l ∈ links (feed html) ->
                   Py.contains marker l = true ->
                   exists url, urljoin repo_url l = Ok url) ->
                e = none_not_iterable)).
  { rewrite Hroot.
    destruct (fold_left (Root.link_step urljoin repo_url) (map Some xs) (Ok []))
      as [urls|e] eqn:Ef.
    - by exists none_not_iterable.
    - exists e. split; [done|]. intros H.
      destruct (Hres H) as (urls & Hu). discriminate. }
  destruct Hex as (e & Hr & He). exists e.
  assert (Ha : Api.parse_repository_page urljoin html repo_url = Raise e)
    by (by rewrite api_parse_follows_root, Hr).
  split; [done|]. split; [done|]. split; [done|].
  intros HR Eo. unfold Root.process_repository, Api.process_repository,
    Root.fetch_url, Api.fetch_url. rewrite HR, Eo.
  unfold Root.parse_repository_page_text, Api.parse_repository_page_text.
  cbn [parser_feed]. by rewrite Hr, Ha.
Qed.

Lemma valueless_href_aborts_witness :
  None ∈ links (feed valueless_listing)
  /\ Api.process_repository request_with_scheme valueless_urlopen
       urljoin_concat "http://idot/" tt
     = (Raise none_not_iterable, tt).
Proof.
  assert (H : None ∈ links (feed valueless_listing)) by (by constructor).
  split; [exact H|].
  destruct (valueless_href_aborts request_with_scheme valueless_urlopen
              urljoin_concat "http://idot/" tt tt valueless_listing H)
    as (e & _ & _ & He & Hp).
  rewrite <- (He (fun l _ _ => ex_intro _ _ eq_refl)).
  by destruct (Hp eq_refl eq_refl).
Defined.

(** ** The requests a run makes *)

Lemma scrape_contracts_world {World : Type}
    (fetch_url : string -> World -> result Html * World) urls :
  forall results w,
    snd (scrape_contracts fetch_url urls results w)
    = fold_left (fun w url => snd (fetch_url url w)) urls w.
Proof.
  induction urls as [|url urls IH]; intros results w; [done|].
  cbn [scrape_contracts fold_left].
  destruct (contract_row_for fetch_url url w) as (_ & _ & Hw).
  destruct (contract_row fetch_url url w) as [row w1]. cbn in Hw. subst w1.
  apply IH.
Qed.

Section Requests.
Context {World : Type}.
Variable Request : string -> option exn.
Variable urlopen : string -> World -> (NetError + Html) * World.

Lemma root_fetch_url_world url w :
  snd (Root.fetch_url Request urlopen url w)
  = if requestable Request url then snd (urlopen url w) else w.
Proof.
  unfold Root.fetch_url, requestable. destruct (Request url); [done|].
  by destruct (urlopen url w) as [[e|html] w1].
Qed.

Lemma api_fetch_url_world url w :
  snd (Api.fetch_url Request urlopen url w)
  = if requestable Request url then snd (urlopen url w) else w.
Proof.
  unfold Api.fetch_url, requestable. destruct (Request url); [done|].
  by destruct (urlopen url w) as [[e|html] w1].
Qed.

Lemma after_fetches_cons url urls w :
  after_fetches urlopen
    (filter (fun url => requestable Request url = true) (url :: urls)) w
  = after_fetches urlopen
      (filter (fun url => requestable Request url = true) urls)
      (if requestable Request url then snd (urlopen url w) else w).
Proof.
  destruct (requestable Request url) eqn:E.
  - by rewrite filter_cons_True.
  - rewrite filter_cons_False; [done | by rewrite E].
Qed.

(** the requests that go out when [fetch_url] is called on [urls] in turn *)
Lemma fetches_sent (fetch_url : string -> World -> result Html * World) :
  (forall url w,
     snd (fetch_url url w)
     = if requestable Request url then snd (urlopen url w) else w) ->
  forall urls w,
    fold_left (fun w url => snd (fetch_url url w)) urls w
    = after_fetches urlopen
        (filter (fun url => requestable Request url = true) urls) w.
Proof.
  intros H. induction urls as [|url urls IH]; intros w; [done|].
  cbn [fold_left]. by rewrite after_fetches_cons, IH, H.
Qed.
End Requests.

Lemma api_parse_text_NoDup urljoin html_content base_url urls :
  Api.parse_repository_page_text urljoin html_content base_url = Ok urls ->
  NoDup urls.
Proof.
  unfold Api.parse_repository_page_text.
  destruct html_content as [html|e]; cbn [parser_feed]; [|done].
  rewrite api_parse_follows_root.
  destruct (Root.parse_repository_page urljoin html base_url) as [urls0|e];
    [|done].
  intros [= <-].
  eapply sublist_NoDup; [apply first_seen_NoDup | apply sublist_take].
Qed.

(** X9.  The requests of a run.  A request goes out for a URL that
    [Request] accepts, and for no other.  A run that returns a report has
    asked for the listing and then called [fetch_url] on every resolved URL,
    once each and in order, whether earlier detail pages failed or not; a
    run that raises has asked for the listing at most.  In
    [src/api/scrape.py] the resolved URLs are pairwise distinct, so no
    detail page is asked for twice. *)
Theorem process_repository_fetches {World : Type}
    (Request : string -> option exn)
    (urlopen : string -> World -> (NetError + Html) * World)
    (urljoin : string -> string -> result string)
    (repo_url : string) (w : World) :
  let sent := filter (fun url => requestable Request url = true) in
  match Root.process_repository Request urlopen urljoin repo_url w with
  | (Ok _, w') =>
      exists html_content urls,
        Request repo_url = None
        /\ fst (urlopen repo_url w) = inr html_content
        /\ Root.parse_repository_page_text urljoin html_content repo_url
           = Ok urls
        /\ w' = after_fetches urlopen (sent (repo_url :: urls)) w
  | (Raise _, w') => w' = after_fetches urlopen (sent [repo_url]) w
  end
  /\ match Api.process_repository Request urlopen urljoin repo_url w with
     | (Ok _, w') =>
         exists html_content urls,
           Request repo_url = None
           /\ fst (urlopen repo_url w) = inr html_content
           /\ Api.parse_repository_page_text urljoin html_content repo_url
              = Ok urls
           /\ NoDup urls
           /\ w' = after_fetches urlopen (sent (repo_url :: urls)) w
     | (Raise _, w') => w' = after_fetches urlopen (sent [repo_url]) w
     end.
Proof.
  cbn zeta.
  rewrite (after_fetches_cons Request urlopen repo_url []), filter_nil.
  cbn [after_fetches fold_left].
  assert (Hq : requestable Request repo_url
               = match Request repo_url with None => true | Some _ => false end)
    by done.
  split.
  - unfold Root.process_repository. unfold Root.fetch_url at 1.
    destruct (Request repo_url) as [e|] eqn:HR; rewrite Hq; [done|].
    destruct (urlopen repo_url w) as [[e|html] w1] eqn:Eo; cbn [snd fst];
      [done|].
    destruct (Root.parse_repository_page_text urljoin html repo_url)
      as [urls|e] eqn:Ep; [|done].
    destruct (nonempty urls); [|done].
    pose proof (scrape_contracts_world (Root.fetch_url Request urlopen)
                  urls [] w1) as Hw.
    destruct (scrape_contracts _ urls [] w1) as [rows w2]. cbn [snd] in Hw.
    exists html, urls. split; [done|]. split; [done|]. split; [done|].
    rewrite Hw, after_fetches_cons, Hq, Eo. cbn [snd].
    apply fetches_sent. apply root_fetch_url_world.
  - unfold Api.process_repository. unfold Api.fetch_url at 1.
    destruct (Request repo_url) as [e|] eqn:HR; rewrite Hq; [done|].
    destruct (urlopen repo_url w) as [[e|html] w1] eqn:Eo; cbn [snd fst];
      [done|].
    destruct (Api.parse_repository_page_text urljoin html repo_url)
      as [urls|e] eqn:Ep; [|done].
    destruct (nonempty urls); [|done].
    pose proof (scrape_contracts_world (Api.fetch_url Request urlopen)
                  urls [] w1) as Hw.
    destruct (scrape_contracts _ urls [] w1) as [rows w2]. cbn [snd] in Hw.
    exists html, urls. split; [done|]. split; [done|]. split; [done|].
    split; [by apply api_parse_text_NoDup in Ep|].
    rewrite Hw, after_fetches_cons, Hq, Eo. cbn [snd].
    apply fetches_sent. apply api_fetch_url_world.
Qed.

(** on the example network the second detail page fails; the third is
    asked for all the same *)
Example logged_requests :
  snd (Api.process_repository request_with_scheme logging_urlopen
         urljoin_concat "http://idot/" [])
  = ["http://idot/"; "http://idot/LbContractDetail/1";
     "http://idot/LbContractDetail/2"; "http://idot/LbContractDetail/3"].
Proof. vm_compute. reflexivity. Qed.

(** a URL without a scheme: the request cannot be built and nothing is
    asked for *)
Example no_request_without_scheme :
  Api.process_repository request_with_scheme logging_urlopen urljoin_concat
    "idot" []
  = (Raise (ValueError "unknown url type: 'idot'"), [])
  /\ Root.process_repository request_with_scheme logging_urlopen urljoin_concat
       "idot" []
     = (Raise (Exception
                 "Failed to fetch repository page: unknown url type: 'idot'"),
        []).
Proof. split; vm_compute; reflexivity. Qed.

(** ** The request handler and a blank URL *)

Lemma lstrip_all_space s : all_space s = true -> Py.lstrip s = EmptyString.
Proof.
  induction s as [|c s IH]; [done|]. cbn [all_space Py.lstrip].
  intros H. apply andb_true_iff in H as [-> H]. by apply IH.
Qed.

Lemma lstrip_not_all_space s :
  all_space s = false -> Py.strip s <> EmptyString.
Proof.
  unfold Py.strip. induction s as [|c s IH]; [done|].
  cbn [all_space Py.lstrip]. destruct (Py.is_space c) eqn:E; cbn [andb].
  - apply IH.
  - intros _. destruct (rstrip_nonspace c s E) as (r & ->). done.
Qed.

(** X10.  A [repo_url] field that is empty or made of white space only is
    answered with the missing-URL error and no request goes out; any other
    field reaches [process_repository] stripped, and the reply is its
    report or the text of its error.  Both variants behave so. *)
Theorem handler_blank_url {World : Type}
    (process_repository : string -> World -> result string * World)
    (repo_url_field : string) (w : World) :
  (all_space repo_url_field = true ->
   handle_post process_repository repo_url_field w
   = (Failure "No repository URL provided", w))
  /\ (all_space repo_url_field = false ->
      handle_post process_repository repo_url_field w
      = match process_repository (Py.strip repo_url_field) w with
        | (Ok csv_content, w') =>
            (Success csv_content (success_message csv_content), w')
        | (Raise e, w') => (Failure (str_exn e), w')
        end).
Proof.
  unfold handle_post. split; intros H.
  - unfold Py.strip. by rewrite lstrip_all_space.
  - apply lstrip_not_all_space, truthy_true in H. by rewrite H.
Qed.

Lemma handler_blank_url_witness :
  all_space "   " = true
  /\ Api.handler request_with_scheme sample_urlopen urljoin_concat "   " tt
     = (Failure "No repository URL provided", tt)
  /\ all_space " http://idot/ " = false
  /\ Root.handler request_with_scheme sample_urlopen urljoin_concat
       " http://idot/ " tt
     = Root.handler request_with_scheme sample_urlopen urljoin_concat
         "http://idot/" tt.
Proof.
  split; [reflexivity|]. split.
  - exact (proj1 (handler_blank_url
                    (Api.process_repository request_with_scheme sample_urlopen
                       urljoin_concat)
                    "   " tt) eq_refl).
  - split; [reflexivity|]. unfold Root.handler.
    rewrite (proj2 (handler_blank_url
                      (Root.process_repository request_with_scheme
                         sample_urlopen urljoin_concat)
                      " http://idot/ " tt) eq_refl).
    rewrite (proj2 (handler_blank_url
                      (Root.process_repository request_with_scheme
                         sample_urlopen urljoin_concat)
                      "http://idot/" tt) eq_refl).
    reflexivity.
Defined.

(** ** The extractor on documents written table by table *)

Lemma feed_cell p c :
  in_row p = true ->
  exists cc,
    feed_from p (render_cell c)
    = mkParser (alter (fun r => r ++ [Py.strip (cell_text c)])
                      (current_row p) (row_store p))
               (table_store p) (tables p) (current_table p) (current_row p)
               cc (in_table p) true false
               (links p ++ map Some (cell_hrefs c)).
Proof.
  intros H. destruct p as [rs ts tb ct cr cc0 it ir ic lk]. cbn in H. subst ir.
  destruct c as [text|href text]; eexists.
  - cbn. rewrite app_nil_r. reflexivity.
  - cbn. reflexivity.
Qed.

Lemma alter_snoc_app {A} (l : list (list A)) i (a : A) (xs : list A) :
  alter (fun r => r ++ xs) i (alter (fun r => r ++ [a]) i l)
  = alter (fun r => r ++ a :: xs) i l.
Proof.
  rewrite list_alter_alter_eq. apply list_alter_ext; [|done].
  intros r _. cbn. by rewrite <- app_assoc.
Qed.

Lemma feed_cells cells : forall p,
  in_row p = true ->
  exists cc ic,
    feed_from p (concat (map render_cell cells))
    = mkParser (alter (fun r => r ++ row_texts cells)
                      (current_row p) (row_store p))
               (table_store p) (tables p) (current_table p) (current_row p)
               cc (in_table p) true ic
               (links p ++ map Some (row_hrefs cells)).
Proof.
  induction cells as [|c cells IH]; intros p H.
  - exists (current_cell p), (in_cell p). cbn.
    rewrite app_nil_r, list_alter_id by (intros; apply app_nil_r).
    destruct p. cbn in *. by subst.
  - cbn [map concat]. rewrite feed_from_app.
    destruct (feed_cell p c H) as (cc1 & ->).
    edestruct IH as (cc & ic & ->); [reflexivity|]. exists cc, ic. cbn.
    rewrite alter_snoc_app. unfold row_hrefs. cbn [map concat].
    by rewrite map_app, app_assoc.
Qed.

Lemma alter_last {A} (l : list (list A)) (x xs : list A) :
  alter (fun r => r ++ xs) (length l) (l ++ [x]) = l ++ [x ++ xs].
Proof.
  rewrite <- (Nat.add_0_r (length l)) at 1. by rewrite alter_app_r.
Qed.

Lemma lookup_total_last {A} (l : list (list A)) (x : list A) :
  (l ++ [x]) !!! length l = x.
Proof.
  rewrite list_lookup_total_alt, lookup_app_r by lia.
  by rewrite Nat.sub_diag.
Qed.

Lemma nonempty_map {A B} (f : A -> B) (l : list A) :
  nonempty (map f l) = nonempty l.
Proof. by destruct l. Qed.

Lemma feed_row p cells :
  in_table p = true ->
  exists cc ic,
    feed_from p (render_row cells)
    = mkParser (row_store p ++ [row_texts cells])
               (alter (fun t => t ++ row_refs (length (row_store p)) [cells])
                      (current_table p) (table_store p))
               (tables p) (current_table p) (length (row_store p))
               cc true false ic
               (links p ++ map Some (row_hrefs cells)).
Proof.
  intros H. unfold render_row, tr. rewrite !feed_from_app.
  set (p1 := feed_from p [StartTag "tr" []]).
  assert (E1 : p1 = mkParser (row_store p ++ [ [] ]) (table_store p) (tables p)
                      (current_table p) (length (row_store p)) (current_cell p)
                      true true (in_cell p) (links p)).
  { unfold p1. destruct p. cbn in *. by subst. }
  destruct (feed_cells cells p1) as (cc & ic & ->); [by rewrite E1|].
  rewrite E1. cbn [row_store table_store tables current_table current_row
                   in_table links].
  rewrite alter_last. cbn [app].
  exists cc, ic. unfold feed_from. cbn [fold_left handle].
  unfold handle_endtag. cbn [String.eqb Ascii.eqb Bool.eqb andb in_row].
  unfold row_at. cbn [row_store current_row]. rewrite lookup_total_last.
  assert (En : nonempty (row_texts cells) = nonempty cells)
    by apply nonempty_map.
  rewrite En. cbn [row_refs row_store table_store tables current_table
                   current_row current_cell in_table in_cell links].
  rewrite app_nil_r. destruct (nonempty cells); [done|].
  rewrite list_alter_id by (intros; apply app_nil_r). done.
Qed.

Lemma feed_rows rows : forall p,
  in_table p = true ->
  exists cr cc ir ic,
    feed_from p (concat (map render_row rows))
    = mkParser (row_store p ++ map row_texts rows)
               (alter (fun t => t ++ row_refs (length (row_store p)) rows)
                      (current_table p) (table_store p))
               (tables p) (current_table p) cr cc true ir ic
               (links p ++ map Some (table_hrefs rows)).
Proof.
  induction rows as [|cells rows IH]; intros p H.
  - exists (current_row p), (current_cell p), (in_row p), (in_cell p). cbn.
    rewrite !app_nil_r, list_alter_id by (intros; apply app_nil_r).
    destruct p. cbn in *. by subst.
  - cbn [map concat]. rewrite feed_from_app.
    destruct (feed_row p cells H) as (cc1 & ic1 & ->).
    edestruct IH as (cr & cc & ir & ic & ->); [reflexivity|].
    exists cr, cc, ir, ic.
    cbn [row_store table_store tables current_table current_row in_table links].
    rewrite list_alter_alter_eq. f_equal.
    + by rewrite <- app_assoc.
    + apply list_alter_ext; [|done]. intros t _. cbn [compose row_refs].
      rewrite length_app. cbn [length]. rewrite Nat.add_1_r.
      by rewrite app_nil_r, <- app_assoc.
    + unfold table_hrefs. cbn [map concat]. by rewrite map_app, app_assoc.
Qed.

Lemma feed_table p rows :
  exists cr cc ir ic,
    feed_from p (render_table rows)
    = mkParser (row_store p ++ map row_texts rows)
               (table_store p ++ [row_refs (length (row_store p)) rows])
               (if nonempty (row_refs (length (row_store p)) rows)
                then tables p ++ [length (table_store p)] else tables p)
               (length (table_store p)) cr cc false ir ic
               (links p ++ map Some (table_hrefs rows)).
Proof.
  unfold render_table, table. rewrite !feed_from_app.
  set (p1 := feed_from p [StartTag "table" []]).
  assert (E1 : p1 = mkParser (row_store p) (table_store p ++ [ [] ]) (tables p)
                      (length (table_store p)) (current_row p) (current_cell p)
                      true (in_row p) (in_cell p) (links p)).
  { unfold p1. by destruct p. }
  destruct (feed_rows rows p1) as (cr & cc & ir & ic & ->); [by rewrite E1|].
  rewrite E1. cbn [row_store table_store tables current_table current_row
                   in_table links].
  rewrite alter_last. cbn [app].
  exists cr, cc, ir, ic. unfold feed_from. cbn [fold_left handle].
  unfold handle_endtag. cbn [String.eqb Ascii.eqb Bool.eqb].
  unfold table_at. cbn [table_store current_table].
  by rewrite lookup_total_last.
Qed.

Lemma row_refs_values rows : forall rs : list Row,
  map (fun r => (rs ++ map row_texts rows) !!! r) (row_refs (length rs) rows)
  = table_texts rows.
Proof.
  unfold table_texts.
  induction rows as [|cells rows IH]; intros rs; [done|].
  cbn [map row_refs]. rewrite map_app.
  assert (E : rs ++ row_texts cells :: map row_texts rows
              = (rs ++ [row_texts cells]) ++ map row_texts rows)
    by (by rewrite <- app_assoc).
  rewrite E.
  assert (El : S (length rs) = length (rs ++ [row_texts cells]))
    by (rewrite length_app; cbn; lia).
  rewrite El, IH.
  assert (En : nonempty (row_texts cells) = nonempty cells)
    by apply nonempty_map.
  destruct (nonempty cells) eqn:Ec.
  - rewrite filter_cons_True by (by rewrite En). cbn [map app]. f_equal.
    rewrite lookup_total_app_l by (rewrite length_app; cbn; lia).
    apply lookup_total_last.
  - by rewrite filter_cons_False by (by rewrite En).
Qed.

Lemma table_value_grow p p' t (xs : list Row) (ys : list (list nat)) :
  store_ok p ->
  row_store p' = row_store p ++ xs ->
  table_store p' = table_store p ++ ys ->
  t < length (table_store p) ->
  table_value p' t = table_value p t.
Proof.
  intros Hok Hr Ht Hlt. unfold table_value, table_at, row_at.
  rewrite Hr, Ht, lookup_total_app_l by done.
  pose proof (ok_rows p Hok) as Hrows. rewrite Forall_lookup in Hrows.
  assert (Hin : Forall (fun r => r < length (row_store p)) (table_store p !!! t)).
  { apply (Hrows t). by apply list_lookup_lookup_total_lt. }
  induction Hin as [|r refs Hlr _ IH]; [done|].
  cbn [map]. by rewrite IH, lookup_total_app_l.
Qed.

Lemma feed_table_tables p rows :
  store_ok p ->
  tables_of (feed_from p (render_table rows))
  = tables_of p ++ (if nonempty (table_texts rows) then [table_texts rows] else [])
  /\ links (feed_from p (render_table rows))
     = links p ++ map Some (table_hrefs rows).
Proof.
  intros Hok. destruct (feed_table p rows) as (cr & cc & ir & ic & E).
  set (p' := feed_from p (render_table rows)) in *.
  assert (Hr : row_store p' = row_store p ++ map row_texts rows) by (by rewrite E).
  assert (Ht : table_store p'
               = table_store p ++ [row_refs (length (row_store p)) rows])
    by (by rewrite E).
  split; [|by rewrite E].
  assert (Hold : map (table_value p') (tables p) = tables_of p).
  { unfold tables_of. pose proof (ok_tables p Hok) as Hts. clear E.
    induction Hts as [|t ts Hlt _ IH]; [done|]. cbn [map].
    by rewrite IH, (table_value_grow p p' t _ _ Hok Hr Ht Hlt). }
  assert (Hnew : table_value p' (length (table_store p)) = table_texts rows).
  { unfold table_value, table_at, row_at. rewrite Hr, Ht, lookup_total_last.
    apply row_refs_values. }
  assert (En : nonempty (row_refs (length (row_store p)) rows)
               = nonempty (table_texts rows)).
  { rewrite <- (row_refs_values rows (row_store p)). by rewrite nonempty_map. }
  unfold tables_of at 1. rewrite E at 2. cbn [tables]. rewrite En.
  destruct (nonempty (table_texts rows)).
  - by rewrite map_app, Hold, <- Hnew.
  - by rewrite Hold, app_nil_r.
Qed.

Lemma feed_document_tables tbls : forall p,
  store_ok p ->
  tables_of (feed_from p (render_document tbls)) = tables_of p ++ document_tables tbls
  /\ links (feed_from p (render_document tbls))
     = links p ++ map Some (document_hrefs tbls).
Proof.
  unfold render_document, document_tables, document_hrefs.
  induction tbls as [|rows tbls IH]; intros p Hok.
  - cbn. by rewrite !app_nil_r.
  - cbn [map concat]. rewrite feed_from_app.
    destruct (feed_table_tables p rows Hok) as [Et El].
    destruct (IH (feed_from p (render_table rows))) as [-> ->];
      [by apply store_ok_feed_from|].
    rewrite Et, El, map_app, <- !app_assoc. split; [|done]. f_equal.
    destruct (nonempty (table_texts rows)) eqn:En.
    + by rewrite filter_cons_True by done.
    + by rewrite filter_cons_False by (by rewrite En).
Qed.

(** X12.  A document written table by table, row by row and cell by cell,
    each cell holding text or a link around text, is read back as written:
    the cells come back stripped, a row without cells and a table without
    such a row are dropped, and the links are the [href] values in document
    order. *)
Theorem extract_rendered_document (tbls : list (list (list CellSpec))) :
  extract (render_document tbls)
  = (document_tables tbls, map Some (document_hrefs tbls)).
Proof.
  unfold extract, feed.
  by destruct (feed_document_tables tbls init store_ok_init) as [-> ->].
Qed.

Example extract_rendered_listing :
  extract (render_document
             [[[PlainCell " Cook "; PlainCell "Active";
                LinkCell "LbContractDetail/1" "61A12"];
               []];
              []])
  = ([[["Cook"; "Active"; "61A12"]]], [Some "LbContractDetail/1"]).
Proof. reflexivity. Qed.

(** ** Outside any table *)

Lemma handle_outside p tok :
  in_table p = false -> in_row p = false -> in_cell p = false ->
  opens_table tok = false ->
  handle p tok
  = mkParser (row_store p) (table_store p)
      (tables p ++ (if closes_table tok && nonempty (table_at p (current_table p))
                    then [current_table p] else []))
      (current_table p) (current_row p) (current_cell p) false false false
      (links p).
Proof.
  intros H1 H2 H3 Hop. destruct p as [rs ts tb ct cr cc it ir ic lk].
  cbn in H1, H2, H3. subst.
  destruct tok as [tag attrs|tag|data]; cbn in Hop |- *.
  - unfold handle_starttag; cbn. rewrite Hop, !andb_false_r, app_nil_r. done.
  - unfold handle_endtag; cbn. destruct (String.eqb tag "table"); cbn.
    + unfold table_at; cbn. destruct (nonempty _); [done | by rewrite app_nil_r].
    + by rewrite !andb_false_r, app_nil_r.
  - unfold handle_data; cbn. by rewrite app_nil_r.
Qed.

Lemma feed_from_outside (p : SimpleHTMLParser) (html : Markup) :
  in_table p = false -> in_row p = false -> in_cell p = false ->
  Forall (fun tok => opens_table tok = false) html ->
  feed_from p html
  = mkParser (row_store p) (table_store p)
      (tables p ++
       (if nonempty (table_at p (current_table p))
        then replicate (length (filter (fun tok => closes_table tok = true) html))
                       (current_table p)
        else []))
      (current_table p) (current_row p) (current_cell p) false false false
      (links p).
Proof.
  intros H1 H2 H3 Hall. revert p H1 H2 H3.
  induction Hall as [|tok html Htok _ IH]; intros p H1 H2 H3.
  - cbn. destruct p. cbn in *. subst.
    destruct (nonempty _); by rewrite app_nil_r.
  - unfold feed_from. cbn [fold_left]. fold (feed_from (handle p tok) html).
    rewrite (handle_outside p tok H1 H2 H3 Htok).
    rewrite IH by done.
    cbn [row_store table_store tables current_table current_row current_cell links].
    unfold table_at at 1. cbn [table_store current_table].
    fold (table_at p (current_table p)).
    f_equal. rewrite <- app_assoc. f_equal.
    destruct (closes_table tok) eqn:Ec.
    + rewrite filter_cons_True by done. cbn [andb length replicate].
      by destruct (nonempty _).
    + rewrite filter_cons_False by (by rewrite Ec). done.
Qed.

(** X13.  Outside any table, that is with no table, row or cell open,
    everything up to the next table start tag is ignored: rows, cells, text
    and links leave no trace.  Only a table end tag acts: each one appends
    the current table once more, when that table has a row. *)
Theorem outside_tables_ignored (p : SimpleHTMLParser) (html : Markup) :
  in_table p = false -> in_row p = false -> in_cell p = false ->
  Forall (fun tok => opens_table tok = false) html ->
  feed_from p html
  = mkParser (row_store p) (table_store p)
      (tables p ++
       (if nonempty (table_at p (current_table p))
        then replicate (length (filter (fun tok => closes_table tok = true) html))
                       (current_table p)
        else []))
      (current_table p) (current_row p) (current_cell p) false false false
      (links p).
Proof. apply feed_from_outside. Qed.

Lemma outside_tables_ignored_witness :
  let p := feed (table [tr [td "a"]]) in
  let html := tr [td_link "LbContractDetail/9" "b"] ++ [EndTag "table"; Text "c"] in
  in_table p = false /\ in_row p = false /\ in_cell p = false
  /\ Forall (fun tok => opens_table tok = false) html
  /\ tables_of (feed_from p html) = [[["a"]]; [["a"]]]
  /\ links (feed_from p html) = [].
Proof.
  intros p html.
  assert (Hall : Forall (fun tok => opens_table tok = false) html)
    by (by repeat constructor).
  split; [reflexivity|]. split; [reflexivity|]. split; [reflexivity|].
  split; [exact Hall|].
  rewrite (outside_tables_ignored p html eq_refl eq_refl eq_refl Hall).
  split; reflexivity.
Defined.

(** ** Documents without cells *)

Lemma lookup_total_all_nil {A} (l : list (list A)) i :
  Forall (fun x => x = []) l -> l !!! i = [].
Proof.
  intros H. rewrite list_lookup_total_alt.
  destruct (l !! i) as [x|] eqn:E; [|done].
  rewrite Forall_lookup in H. by apply (H i).
Qed.

Lemma handle_no_cells p tok :
  starts_cell tok = false ->
  in_cell p = false /\ Forall (fun r => r = []) (row_store p)
  /\ Forall (fun t => t = []) (table_store p)
  /\ tables p = [] /\ links p = [] ->
  let p' := handle p tok in
  in_cell p' = false /\ Forall (fun r => r = []) (row_store p')
  /\ Forall (fun t => t = []) (table_store p')
  /\ tables p' = [] /\ links p' = [].
Proof.
  intros Htok (Hc & Hr & Ht & Htb & Hl). cbn zeta.
  destruct tok as [tag attrs|tag|data]; cbn in Htok |- *.
  - unfold handle_starttag. rewrite Htok, Hc, andb_false_r. cbn [andb].
    destruct (String.eqb tag "table").
    { cbn. repeat split; try done. apply Forall_app. by repeat constructor. }
    destruct (String.eqb tag "tr" && in_table p); [|done].
    cbn. repeat split; try done. apply Forall_app. by repeat constructor.
  - unfold handle_endtag. rewrite Hc, andb_false_r.
    unfold table_at, row_at. rewrite !lookup_total_all_nil by done. cbn.
    destruct (String.eqb tag "table"); [done|].
    by destruct (String.eqb tag "tr" && in_row p).
  - unfold handle_data. by rewrite Hc.
Qed.

(** X14.  A document without a td or th start tag yields no table and no
    link, whatever else it holds: tables, rows and anchors without cells
    leave the result empty. *)
Theorem no_cells_no_tables (html : Markup) :
  Forall (fun tok => starts_cell tok = false) html ->
  extract html = ([], []).
Proof.
  intros Hall.
  assert (H : forall p,
             in_cell p = false /\ Forall (fun r => r = []) (row_store p)
             /\ Forall (fun t => t = []) (table_store p)
             /\ tables p = [] /\ links p = [] ->
             tables (feed_from p html) = [] /\ links (feed_from p html) = []).
  { induction Hall as [|tok html Htok _ IH]; intros p Hp.
    - by destruct Hp as (_ & _ & _ & ? & ?).
    - unfold feed_from. cbn [fold_left]. apply IH.
      by apply handle_no_cells. }
  unfold extract, tables_of, feed.
  destruct (H init) as [-> ->]; [|done].
  repeat split; by repeat constructor.
Qed.

Lemma no_cells_no_tables_witness :
  let html := [StartTag "table" []; StartTag "tr" [];
               StartTag "a" [("href", Some "LbContractDetail/1")]; Text "61A12";
               EndTag "a"; EndTag "tr"; EndTag "table"] in
  Forall (fun tok => starts_cell tok = false) html
  /\ extract html = ([], []).
Proof.
  intros html.
  assert (Hall : Forall (fun tok => starts_cell tok = false) html)
    by (by repeat constructor).
  split; [exact Hall|]. exact (no_cells_no_tables html Hall).
Defined.

(** ** A table inside a table *)

Lemma flags_handle p tok : flags (handle p tok) = flag_step (flags p) tok.
Proof.
  unfold flags. destruct p as [rs ts tb ct cr cc it ir ic lk].
  destruct tok as [tag attrs|tag|data];
    cbn [handle flag_step in_table in_row in_cell].
  - unfold handle_starttag. cbn [in_table in_row in_cell].
    destruct (String.eqb tag "table"); [done|].
    destruct (String.eqb tag "tr" && it); [done|].
    destruct (is_cell_tag tag && ir); [done|].
    by destruct (String.eqb tag "a" && ic).
  - unfold handle_endtag. cbn [in_table in_row in_cell].
    destruct (String.eqb tag "table"); [done|].
    destruct (String.eqb tag "tr" && ir); [done|].
    by destruct (is_cell_tag tag && ic).
  - unfold handle_data. cbn [in_cell]. by destruct ic.
Qed.

Lemma flags_feed_from html : forall p,
  flags (feed_from p html) = fold_left flag_step html (flags p).
Proof.
  unfold feed_from. induction html as [|tok html IH]; intros p; [done|].
  cbn [fold_left]. by rewrite IH, flags_handle.
Qed.

Lemma flags_cells cells : forall it ic,
  fold_left flag_step (concat (map render_cell cells)) (it, true, ic)
  = (it, true, ic && negb (nonempty cells)).
Proof.
  induction cells as [|c cells IH]; intros it ic.
  - cbn. by rewrite andb_true_r.
  - cbn [map concat]. rewrite fold_left_app.
    assert (E : fold_left flag_step (render_cell c) (it, true, ic)
                = (it, true, false)) by (by destruct c).
    rewrite E, IH. cbn. by rewrite andb_false_r.
Qed.

Lemma flags_row cells ir ic :
  fold_left flag_step (render_row cells) (true, ir, ic)
  = (true, false, ic && negb (nonempty cells)).
Proof.
  unfold render_row, tr. rewrite !fold_left_app.
  cbn [fold_left flag_step String.eqb Ascii.eqb Bool.eqb andb].
  rewrite flags_cells. done.
Qed.

Lemma flags_rows rows : forall ir ic,
  fold_left flag_step (concat (map render_row rows)) (true, ir, ic)
  = (true, ir && negb (nonempty rows), ic && negb (existsb nonempty rows)).
Proof.
  induction rows as [|cells rows IH]; intros ir ic.
  - cbn. by rewrite !andb_true_r.
  - cbn [map concat]. rewrite fold_left_app, flags_row, IH. cbn.
    rewrite andb_false_r. by destruct ic, (nonempty cells).
Qed.

Lemma flags_table rows it ir ic :
  fold_left flag_step (render_table rows) (it, ir, ic)
  = (false, ir && negb (nonempty rows), ic && negb (existsb nonempty rows)).
Proof.
  unfold render_table, table. rewrite !fold_left_app.
  cbn [fold_left flag_step String.eqb Ascii.eqb Bool.eqb].
  by rewrite flags_rows.
Qed.

Lemma table_texts_nonempty rows :
  nonempty (table_texts rows) = existsb nonempty rows.
Proof.
  unfold table_texts. induction rows as [|cells rows IH]; [done|].
  cbn [map existsb].
  assert (En : nonempty (row_texts cells) = nonempty cells)
    by apply nonempty_map.
  destruct (nonempty cells) eqn:Ec.
  - by rewrite filter_cons_True by (by rewrite En).
  - by rewrite filter_cons_False by (by rewrite En).
Qed.

Lemma flags_after_table p rows :
  nonempty (table_texts rows) = true ->
  flags (feed_from p (render_table rows)) = (false, false, false).
Proof.
  intros H. rewrite table_texts_nonempty in H.
  rewrite flags_feed_from. unfold flags. rewrite flags_table, H.
  assert (Hr : nonempty rows = true) by (by destruct rows).
  by rewrite Hr, !andb_false_r.
Qed.

Lemma render_rows_quiet rows :
  Forall (fun tok => opens_table tok = false /\ closes_table tok = false)
         (concat (map render_row rows)).
Proof.
  induction rows as [|cells rows IH]; [constructor|].
  cbn [map concat]. apply Forall_app. split; [|done].
  unfold render_row, tr. apply Forall_app. split; [by repeat constructor|].
  apply Forall_app. split; [|by repeat constructor].
  induction cells as [|c cells IHc]; [constructor|].
  cbn [map concat]. apply Forall_app. split; [|done].
  destruct c; by repeat constructor.
Qed.

Lemma feed_table_current p rows :
  let p' := feed_from p (render_table rows) in
  current_table p' = length (table_store p)
  /\ table_value p' (length (table_store p)) = table_texts rows.
Proof.
  cbn zeta. destruct (feed_table p rows) as (cr & cc & ir & ic & E).
  split; [by rewrite E|].
  unfold table_value, table_at, row_at. rewrite E.
  cbn [row_store table_store]. rewrite lookup_total_last.
  apply row_refs_values.
Qed.

Lemma filter_closes_quiet (html : Markup) :
  Forall (fun tok => opens_table tok = false /\ closes_table tok = false) html ->
  Forall (fun tok => opens_table tok = false) html
  /\ filter (fun tok => closes_table tok = true) html = [].
Proof.
  induction 1 as [|tok html [Ho Hc] _ [IH1 IH2]]; [done|].
  split; [by constructor|]. by rewrite filter_cons_False by (by rewrite Hc).
Qed.

(** X15.  A table written inside a cell of another table: once the inner
    table is closed, no table is open any more, so the rest of the outer
    table is ignored, the outer table is never returned, and its end tag
    appends the inner table a second time.  The links are those of the
    inner table only. *)
Theorem nested_table_outer_lost (text : string) (inner rest : list (list CellSpec)) :
  nonempty (table_texts inner) = true ->
  extract (nested_document text inner rest)
  = ([table_texts inner; table_texts inner], map Some (table_hrefs inner)).
Proof.
  intros Hne. unfold extract, nested_document.
  set (pre := [StartTag "table" []; StartTag "tr" []; StartTag "td" []; Text text]).
  set (post := [EndTag "td"; EndTag "tr"] ++ concat (map render_row rest)
               ++ [EndTag "table"]).
  rewrite feed_app, !feed_from_app. set (p0 := feed pre).
  assert (Hok0 : store_ok p0) by apply store_ok_feed_from, store_ok_init.
  set (p1 := feed_from p0 (render_table inner)).
  destruct (feed_table_tables p0 inner Hok0) as [Et El]. fold p1 in Et, El.
  rewrite Hne in Et.
  destruct (feed_table_current p0 inner) as [Ec Ev]. fold p1 in Ec, Ev.
  pose proof (flags_after_table p0 inner Hne) as Hf. fold p1 in Hf.
  unfold flags in Hf. injection Hf as H1 H2 H3.
  assert (Hq : Forall (fun tok => opens_table tok = false) post
               /\ filter (fun tok => closes_table tok = true) post
                  = [EndTag "table"]).
  { unfold post. destruct (filter_closes_quiet _ (render_rows_quiet rest))
      as [Ho Hc].
    split.
    - apply Forall_app. split; [by repeat constructor|].
      apply Forall_app. split; [done | by repeat constructor].
    - rewrite !filter_app, Hc. reflexivity. }
  destruct Hq as [Ho Hc].
  rewrite (feed_from_outside p1 post H1 H2 H3 Ho), Hc.
  cbn [length replicate links]. unfold tables_of.
  cbn [tables].
  assert (Hn : nonempty (table_at p1 (current_table p1)) = true).
  { rewrite Ec. apply nonempty_true. intros E.
    unfold table_value in Ev. rewrite E in Ev. cbn in Ev.
    by rewrite <- Ev in Hne. }
  rewrite Hn, map_app. cbn [map].
  change (map (table_value ?q) (tables p1)) with (tables_of p1).
  change (table_value _ (current_table p1))
    with (table_value p1 (current_table p1)).
  by rewrite Et, El, Ec, Ev.
Qed.

Lemma nested_table_outer_lost_witness :
  let inner := [[PlainCell "i"; LinkCell "LbContractDetail/1" "61A12"]] in
  let rest := [[PlainCell "y"; LinkCell "LbContractDetail/2" "61A13"]] in
  nonempty (table_texts inner) = true
  /\ extract (nested_document "x" inner rest)
     = ([[["i"; "61A12"]]; [["i"; "61A12"]]], [Some "LbContractDetail/1"]).
Proof.
  intros inner rest.
  assert (H : nonempty (table_texts inner) = true) by reflexivity.
  split; [exact H|].
  rewrite (nested_table_outer_lost "x" inner rest H). reflexivity.
Defined.

(** ** Matching ignores case *)

Lemma lower_char_idem c : Py.lower_char (Py.lower_char c) = Py.lower_char c.
Proof.
  destruct c as [[] [] [] [] [] [] [] []]; vm_compute; reflexivity.
Qed.

Lemma lower_idem s : Py.lower (Py.lower s) = Py.lower s.
Proof.
  induction s as [|c s IH]; [done|]. cbn [Py.lower].
  by rewrite lower_char_idem, IH.
Qed.

Lemma lower_app a b : Py.lower (a +:+ b) = Py.lower a +:+ Py.lower b.
Proof.
  induction a as [|c a IH]; [done|].
  rewrite append_cons. cbn [Py.lower]. by rewrite IH, append_cons.
Qed.

Lemma lower_join_space (row : Row) :
  Py.lower (Py.join " " row) = Py.join " " (map Py.lower row).
Proof.
  unfold Py.join. induction row as [|cell row IH]; [done|].
  destruct row as [|cell' row]; [done|].
  cbn [map String.concat] in IH |- *.
  change (cell ++ " " ++ String.concat " " (cell' :: row))%string
    with (cell +:+ " " +:+ String.concat " " (cell' :: row)).
  rewrite !lower_app, IH. reflexivity.
Qed.

Lemma row_text_lower (row : Row) : row_text (map Py.lower row) = row_text row.
Proof.
  unfold row_text. rewrite !lower_join_space.
  f_equal. rewrite map_map. apply map_ext. intros cell. apply lower_idem.
Qed.

(** X16.  The row tests read the lower-cased text of the row, so the case
    of the cells does not matter: a row and its lower-cased copy get the
    same verdict from the county and status filter, from the low-bid test
    and from the award test. *)
Theorem row_tests_ignore_case (row : Row) :
  row_matches (map Py.lower row) = row_matches row
  /\ is_low_bid_row (map Py.lower row) = is_low_bid_row row
  /\ is_award_row (map Py.lower row) = is_award_row row.
Proof.
  unfold row_matches, is_low_bid_row, is_award_row.
  by rewrite row_text_lower, length_map.
Qed.

(** ** From a written listing to its URLs *)

(** the link loop raises on valued links only where [urljoin] does *)
Lemma root_link_loop_raised urljoin base_url targets : forall acc e,
  fold_left (Root.link_step urljoin base_url) (map Some targets) (Ok acc)
  = Raise e ->
  exists l, l ∈ targets /\ Py.contains marker l = true
            /\ urljoin base_url l = Raise e.
Proof.
  induction targets as [|l targets IH]; intros acc e;
    cbn [map fold_left Root.link_step]; [done|].
  destruct (Py.contains marker l) eqn:E.
  - destruct (urljoin base_url l) as [url|e'] eqn:Eu.
    + intros H. destruct (IH _ _ H) as (l' & ? & ? & ?).
      exists l'. split; [by right | done].
    + rewrite root_link_loop_raise. intros [= <-].
      exists l. split; [by left | done].
  - intros H. destruct (IH _ _ H) as (l' & ? & ? & ?).
    exists l'. split; [by right | done].
Qed.

(** X17.  The listing stage on a document written table by table.  When
    [urljoin] resolves the marker links of the document, the variant of
    [src/scrape.py] returns the resolved links, and the variant of
    [src/api/scrape.py] returns them de-duplicated and cut to the number of
    written rows that have at least three cells and name a county and a
    status.  On such a document either variant raises only an error that
    [urljoin] raises on one of its marker links. *)
Theorem parse_rendered_listing
    (urljoin : string -> string -> result string) (base_url : string)
    (tbls : list (list (list CellSpec))) :
  let N := length (filter (fun row => row_matches row = true)
                          (concat (document_tables tbls))) in
  (forall urls,
     resolves urljoin base_url (document_hrefs tbls) urls ->
     Root.parse_repository_page urljoin (render_document tbls) base_url
     = Ok urls
     /\ Api.parse_repository_page urljoin (render_document tbls) base_url
        = Ok (take N (first_seen urls)))
  /\ (forall e,
        Root.parse_repository_page urljoin (render_document tbls) base_url
        = Raise e
        \/ Api.parse_repository_page urljoin (render_document tbls) base_url
           = Raise e ->
        exists l, l ∈ document_hrefs tbls /\ Py.contains marker l = true
                  /\ urljoin base_url l = Raise e).
Proof.
  cbn zeta.
  destruct (feed_document_tables tbls init store_ok_init) as [Et El].
  fold (feed (render_document tbls)) in Et, El. cbn [links init app] in El.
  split.
  - intros urls Hr. split.
    + by apply root_parse_valued with (document_hrefs tbls).
    + rewrite (api_parse_valued _ _ _ _ _ El Hr). unfold matching_rows.
      by rewrite Et.
  - intros e H.
    assert (Hroot : Root.parse_repository_page urljoin (render_document tbls)
                      base_url = Raise e).
    { destruct H as [H|H]; [done|]. rewrite api_parse_follows_root in H.
      destruct (Root.parse_repository_page urljoin (render_document tbls)
                  base_url) as [urls|e']; [done|]. by injection H as ->. }
    unfold Root.parse_repository_page in Hroot. cbn zeta in Hroot.
    rewrite El in Hroot. by apply root_link_loop_raised in Hroot.
Qed.

Lemma parse_rendered_listing_witness :
  let tbls := [[[PlainCell "Cook"; PlainCell "Active";
                 LinkCell "LbContractDetail/1" "61A12"];
                [PlainCell "Lake"; PlainCell "Awarded";
                 LinkCell "LbContractDetail/1" "61A12"]]] in
  let urls := ["http://idot/LbContractDetail/1";
               "http://idot/LbContractDetail/1"] in
  resolves urljoin_concat "http://idot/" (document_hrefs tbls) urls
  /\ Root.parse_repository_page urljoin_concat (render_document tbls)
       "http://idot/" = Ok urls
  /\ Api.parse_repository_page urljoin_concat (render_document tbls)
       "http://idot/" = Ok ["http://idot/LbContractDetail/1"].
Proof.
  intros tbls urls.
  assert (Hr : resolves urljoin_concat "http://idot/" (document_hrefs tbls) urls)
    by (by repeat constructor).
  split; [exact Hr|].
  destruct (proj1 (parse_rendered_listing urljoin_concat "http://idot/" tbls)
              urls Hr) as [E1 E2].
  split; [exact E1|]. rewrite E2. reflexivity.
Defined.
